(** * The broadcast hub of [main.py]: [ConnectionManager] and [websocket_endpoint]

    A shallow embedding of the WebSocket part of the service
    (lines 268-302 of [main.py]) and the properties of its registry,
    its broadcast and its per-connection driver.

    The coroutines are functions in a small state-and-exception monad over
    a [world]: the manager's [active] list, the state of everything outside
    the program (sockets, clock, the other coroutines of the event loop) and
    a trace of what the modelled coroutine did.  The framework and the
    standard library are not part of the repository: they appear as the
    fields of a [Platform]. *)

From Stdlib Require Import List String Arith Lia Bool.
Import ListNotations.
Local Open Scope string_scope.

(** ** Python values *)

(** A [WebSocket] object.  Starlette compares connections by identity
    ([__eq__ = object.__eq__]), so an object is its identity. *)
Definition WebSocket : Type := nat.

(** The exception classes that reach this code; all derive from
    [Exception].  What is only a [BaseException] (the cancellation of the
    task, an interrupt) is not an outcome of a call and is outside the
    model. *)
Inductive exn : Type :=
| WebSocketDisconnect (code : nat)
| RuntimeError
| TypeError
| ValueError
| KeyError
| OSError.

(** [except Exception] *)
Definition Exception (e : exn) : bool := true.

(** [except WebSocketDisconnect] *)
Definition is_WebSocketDisconnect (e : exn) : bool :=
  match e with WebSocketDisconnect _ => true | _ => false end.

(** The values of a message dict: the endpoint only builds [str] values;
    [PyObject] is any other object a caller of [broadcast] may put there. *)
Inductive pyval : Type :=
| PyStr (s : string)
| PyObject (id : nat).

(** A [dict] with [str] keys, in insertion order. *)
Definition pydict : Type := list (string * pyval).

Definition is_str (v : pyval) : bool :=
  match v with PyStr _ => true | PyObject _ => false end.

Definition str_only (d : pydict) : bool := forallb (fun kv => is_str (snd kv)) d.

(** ** Timestamps *)

Definition is_digit (a : Ascii.ascii) : bool :=
  Nat.leb 48 (Ascii.nat_of_ascii a) && Nat.leb (Ascii.nat_of_ascii a) 57.

(** Reads [n] decimal digits off the front of [l]. *)
Fixpoint take_digits (n : nat) (l : list Ascii.ascii) : option (list Ascii.ascii) :=
  match n, l with
  | O, _ => Some l
  | S n', a :: t => if is_digit a then take_digits n' t else None
  | S _, [] => None
  end.

(** Reads the characters of [p] off the front of [l]. *)
Fixpoint take_text (p l : list Ascii.ascii) : option (list Ascii.ascii) :=
  match p, l with
  | [], _ => Some l
  | a :: p', b :: t => if Ascii.eqb a b then take_text p' t else None
  | _ :: _, [] => None
  end.

Definition and_then {A B} (o : option A) (k : A -> option B) : option B :=
  match o with Some a => k a | None => None end.

(** The extended ISO-8601 form of an instant in UTC, as [isoformat()] writes
    an aware UTC [datetime]: [YYYY-MM-DDTHH:MM:SS], an optional fraction of
    six digits, and the offset [+00:00]. *)
Definition iso8601_utc (s : string) : bool :=
  let sep (t : string) := take_text (list_ascii_of_string t) in
  match
    and_then (take_digits 4 (list_ascii_of_string s)) (fun l =>
    and_then (sep "-" l) (fun l =>
    and_then (take_digits 2 l) (fun l =>
    and_then (sep "-" l) (fun l =>
    and_then (take_digits 2 l) (fun l =>
    and_then (sep "T" l) (fun l =>
    and_then (take_digits 2 l) (fun l =>
    and_then (sep ":" l) (fun l =>
    and_then (take_digits 2 l) (fun l =>
    and_then (sep ":" l) (fun l =>
    take_digits 2 l))))))))))
  with
  | Some rest =>
      match sep "+00:00" rest with
      | Some [] => true
      | _ =>
          match and_then (sep "." rest) (fun l =>
                and_then (take_digits 6 l) (sep "+00:00")) with
          | Some [] => true
          | _ => false
          end
      end
  | None => false
  end.

(** ** The list operations the manager uses *)

(** [x in l] *)
Fixpoint py_in (x : WebSocket) (l : list WebSocket) : bool :=
  match l with
  | [] => false
  | y :: t => if Nat.eqb x y then true else py_in x t
  end.

(** [l.remove(x)]: drops the first occurrence; [None] is [ValueError]. *)
Fixpoint py_remove (x : WebSocket) (l : list WebSocket) : option (list WebSocket) :=
  match l with
  | [] => None
  | y :: t =>
      if Nat.eqb x y then Some t
      else match py_remove x t with
           | Some t' => Some (y :: t')
           | None => None
           end
  end.

(** [l.append(x)] *)
Definition py_append (l : list WebSocket) (x : WebSocket) : list WebSocket := l ++ [x].

(** ** Outcomes *)

(** What an awaited framework call does: it completes, it raises, or it
    never completes (a peer that stops reading, a read with no frame). *)
Inductive reply (A : Type) : Type :=
| Done (a : A)
| Fails (e : exn)
| Hangs.
Arguments Done {A} a.
Arguments Fails {A} e.
Arguments Hangs {A}.

(** What a coroutine of the program does: it returns, it raises, it stays
    suspended at an await for ever, or (the [while True] loop only) it is
    still running when the fuel of the model is used up. *)
Inductive res (A : Type) : Type :=
| Ret (a : A)
| Raise (e : exn)
| Blocked
| OutOfFuel.
Arguments Ret {A} a.
Arguments Raise {A} e.
Arguments Blocked {A}.
Arguments OutOfFuel {A}.

Definition of_reply {A} (r : reply A) : res A :=
  match r with
  | Done a => Ret a
  | Fails e => Raise e
  | Hangs => Blocked
  end.

(** What the other coroutines of the event loop can do to the registry
    while this one is suspended: they run the same manager methods. *)
Inductive hub_op : Type :=
| OpRegister (c : WebSocket)
| OpDeregister (c : WebSocket).

Definition apply_op (l : list WebSocket) (o : hub_op) : list WebSocket :=
  match o with
  | OpRegister c => py_append l c
  | OpDeregister c =>
      if py_in c l then match py_remove c l with Some l' => l' | None => l end
      else l
  end.

Definition run_ops (ops : list hub_op) (l : list WebSocket) : list WebSocket :=
  fold_left apply_op ops l.

(** The connections that a batch of operations registers, in order. *)
Fixpoint registered (ops : list hub_op) : list WebSocket :=
  match ops with
  | [] => []
  | OpRegister c :: t => c :: registered t
  | OpDeregister _ :: t => registered t
  end.


(** ** The platform *)

(** Starlette's [WebSocket] methods, [json.dumps], the clock and the event
    loop.  [Env] is the state of the outside world; every call may read and
    change it. *)
Class Platform : Type := {
  Env : Type;
  (** [json.dumps(message)]: the text, or the exception it raises. *)
  json_dumps : pydict -> exn + string;
  (** A dict of strings is always serializable. *)
  json_dumps_str : forall d, str_only d = true -> exists data, json_dumps d = inr data;
  (** [await websocket.accept()] *)
  ws_accept : WebSocket -> Env -> reply unit * Env;
  (** [await connection.send_text(data)] *)
  ws_send_text : WebSocket -> string -> Env -> reply unit * Env;
  (** [await websocket.receive_text()] *)
  ws_receive_text : WebSocket -> Env -> reply string * Env;
  (** [datetime.now(timezone.utc).isoformat()] *)
  utcnow_isoformat : Env -> string * Env;
  (** It writes an instant in UTC in ISO-8601 form. *)
  utcnow_iso8601 : forall e, iso8601_utc (fst (utcnow_isoformat e)) = true;
  (** The registry operations of the coroutines that run while this one is
      suspended at an await. *)
  others : Env -> list hub_op * Env;
  (** A call of [accept()] on the socket has completed. *)
  accepted : Env -> WebSocket -> bool;
  (** Starlette accepts a socket once: after an [accept()] that completed
      the [application_state] of the socket is no longer [CONNECTING], and
      [accept()] raises [RuntimeError]. *)
  ws_accept_again :
    forall c e, accepted e c = true -> fst (ws_accept c e) = Fails RuntimeError;
  (** An [accept()] that completes leaves the socket accepted. *)
  ws_accept_done :
    forall c e, fst (ws_accept c e) = Done tt -> accepted (snd (ws_accept c e)) c = true;
  (** No call undoes that: the state of a socket never goes back to
      [CONNECTING]. *)
  accepted_ws_accept :
    forall c x e, accepted e x = true -> accepted (snd (ws_accept c e)) x = true;
  accepted_ws_send_text :
    forall c d x e, accepted e x = true -> accepted (snd (ws_send_text c d e)) x = true;
  accepted_ws_receive_text :
    forall c x e, accepted e x = true -> accepted (snd (ws_receive_text c e)) x = true;
  accepted_utcnow :
    forall x e, accepted e x = true -> accepted (snd (utcnow_isoformat e)) x = true;
  accepted_others :
    forall x e, accepted e x = true -> accepted (snd (others e)) x = true;
  (** The other coroutines run [connect] too, which appends as soon as
      [accept()] has returned: what they register during a suspension are
      the sockets whose [accept()] completed during it, each of them
      once. *)
  others_register_accepted :
    forall e c, In c (registered (fst (others e))) ->
      accepted e c = false /\ accepted (snd (others e)) c = true;
  others_register_once : forall e, NoDup (registered (fst (others e)))
}.

(** ** The world and the monad *)

(** The observable actions of the modelled coroutine. *)
Inductive event : Type :=
| EvDumps (message : pydict)
| EvSend (connection : WebSocket) (data : string) (r : reply unit).

Record world `{Platform} : Type := mkWorld {
  active : list WebSocket;     (* manager.active *)
  env : Env;
  log : list event
}.

Definition M `{Platform} (A : Type) : Type := world -> res A * world.

Definition ret `{Platform} {A} (a : A) : M A := fun w => (Ret a, w).

Definition bind `{Platform} {A B} (m : M A) (k : A -> M B) : M B :=
  fun w =>
    match m w with
    | (Ret a, w') => k a w'
    | (Raise e, w') => (Raise e, w')
    | (Blocked, w') => (Blocked, w')
    | (OutOfFuel, w') => (OutOfFuel, w')
    end.

Notation "x <- m ;; k" := (bind m (fun x => k))
  (at level 61, m at next level, right associativity).
Notation "m ;; k" := (bind m (fun _ => k))
  (at level 61, right associativity).

(** [try: m  except C: handler] *)
Definition try_except `{Platform} {A} (m : M A) (C : exn -> bool) (handler : M A) : M A :=
  fun w =>
    match m w with
    | (Raise e, w') => if C e then handler w' else (Raise e, w')
    | rw => rw
    end.

(** [for x in l: body] *)
Fixpoint for_each `{Platform} {A} (l : list A) (body : A -> M unit) : M unit :=
  match l with
  | [] => ret tt
  | x :: t => body x ;; for_each t body
  end.

(** [await prim]: the call acts on the outside world, and the coroutines
    that run during the suspension act on the registry; [ev] is what the
    trace keeps of the call. *)
Definition await `{Platform} {A} (prim : Env -> reply A * Env)
    (ev : reply A -> list event) : M A :=
  fun w =>
    let (r, e1) := prim (env w) in
    let (ops, e2) := others e1 in
    (of_reply r,
     {| active := run_ops ops (active w); env := e2; log := log w ++ ev r |}).

Definition accept `{Platform} (websocket : WebSocket) : M unit :=
  await (ws_accept websocket) (fun _ => []).

Definition send_text `{Platform} (connection : WebSocket) (data : string) : M unit :=
  await (ws_send_text connection data) (fun r => [EvSend connection data r]).

Definition receive_text `{Platform} (websocket : WebSocket) : M string :=
  await (ws_receive_text websocket) (fun _ => []).

Definition now_isoformat `{Platform} : M string :=
  fun w =>
    let (ts, e1) := utcnow_isoformat (env w) in
    (Ret ts, {| active := active w; env := e1; log := log w |}).

Definition dumps `{Platform} (message : pydict) : M string :=
  fun w =>
    let w' := {| active := active w; env := env w; log := log w ++ [EvDumps message] |} in
    match json_dumps message with
    | inr data => (Ret data, w')
    | inl e => (Raise e, w')
    end.

(** ** [ConnectionManager] *)

(** [connect]: [await websocket.accept()] then [self.active.append(websocket)]. *)
Definition connect `{Platform} (websocket : WebSocket) : M unit :=
  accept websocket ;;
  fun w =>
    (Ret tt, {| active := py_append (active w) websocket; env := env w; log := log w |}).

(** [disconnect]: [if websocket in self.active: self.active.remove(websocket)]. *)
Definition disconnect `{Platform} (websocket : WebSocket) : M unit :=
  fun w =>
    if py_in websocket (active w) then
      match py_remove websocket (active w) with
      | Some l => (Ret tt, {| active := l; env := env w; log := log w |})
      | None => (Raise ValueError, w)
      end
    else (Ret tt, w).

(** The body of the loop of [broadcast]. *)
Definition deliver `{Platform} (data : string) (connection : WebSocket) : M unit :=
  try_except (send_text connection data) Exception (disconnect connection).

(** [broadcast]: serialize, copy the list, send to each element of the copy. *)
Definition broadcast `{Platform} (message : pydict) : M unit :=
  data <- dumps message ;;
  snapshot <- (fun w => (Ret (active w), w)) ;;
  for_each snapshot (deliver data).

(** ** [websocket_endpoint] *)

Definition joined_message : pydict :=
  [("type", PyStr "system"); ("message", PyStr "Player joined")].

Definition left_message : pydict :=
  [("type", PyStr "system"); ("message", PyStr "Player left")].

Definition chat_message (text ts : string) : pydict :=
  [("type", PyStr "chat"); ("text", PyStr text); ("ts", PyStr ts)].

(** The [while True] loop, run for at most [fuel] frames. *)
Fixpoint read_loop `{Platform} (fuel : nat) (websocket : WebSocket) : M unit :=
  match fuel with
  | O => fun w => (OutOfFuel, w)
  | S fuel' =>
      text <- receive_text websocket ;;
      ts <- now_isoformat ;;
      broadcast (chat_message text ts) ;;
      read_loop fuel' websocket
  end.

Definition websocket_endpoint `{Platform} (fuel : nat) (websocket : WebSocket) : M unit :=
  connect websocket ;;
  broadcast joined_message ;;
  try_except (read_loop fuel websocket) is_WebSocketDisconnect
    (disconnect websocket ;; broadcast left_message).

(** ** Reading the trace *)

(** The targets of the send attempts, in order. *)
Fixpoint sent_to (evs : list event) : list WebSocket :=
  match evs with
  | [] => []
  | EvSend c _ _ :: t => c :: sent_to t
  | EvDumps _ :: t => sent_to t
  end.

(** The targets whose send raised. *)
Fixpoint failed_to (evs : list event) : list WebSocket :=
  match evs with
  | [] => []
  | EvSend c _ (Fails _) :: t => c :: failed_to t
  | _ :: t => failed_to t
  end.

(** The targets whose send completed. *)
Fixpoint delivered_to (evs : list event) : list WebSocket :=
  match evs with
  | [] => []
  | EvSend c _ (Done _) :: t => c :: delivered_to t
  | _ :: t => delivered_to t
  end.

(** The messages handed to [json.dumps], in order: one per [broadcast] call. *)
Fixpoint dumped (evs : list event) : list pydict :=
  match evs with
  | [] => []
  | EvDumps m :: t => m :: dumped t
  | EvSend _ _ _ :: t => dumped t
  end.

(** [ev] is one send of [data] to [c], and the platform let it complete or
    made it raise. *)
Definition attempt `{Platform} (data : string) (c : WebSocket) (ev : event) : Prop :=
  exists r e, ev = EvSend c data r /\ r = fst (ws_send_text c data e) /\ r <> Hangs.

(** Every send to [c] completes. *)
Definition healthy `{Platform} (c : WebSocket) : Prop :=
  forall d e, fst (ws_send_text c d e) = Done tt.

(** Every send to [c] raises. *)
Definition failing `{Platform} (c : WebSocket) : Prop :=
  forall d e, exists x, fst (ws_send_text c d e) = Fails x.

(** No send to [c] ever completes or raises. *)
Definition unresponsive `{Platform} (c : WebSocket) : Prop :=
  forall d e, fst (ws_send_text c d e) = Hangs.

(** Number of entries of [c] in a list of connections. *)
Definition entries (c : WebSocket) (l : list WebSocket) : nat :=
  count_occ Nat.eq_dec l c.
Arguments entries : simpl never.

(** No send to a connection of [l] stays suspended for ever. *)
Definition responsive `{Platform} (l : list WebSocket) : Prop :=
  forall c, In c l -> forall d e, fst (ws_send_text c d e) <> Hangs.

(** No send to any connection stays suspended for ever. *)
Definition never_hangs `{Platform} : Prop :=
  forall c d e, fst (ws_send_text c d e) <> Hangs.

(** No other coroutine deregisters [c]. *)
Definition undisturbed `{Platform} (c : WebSocket) : Prop :=
  forall e, ~ In (OpDeregister c) (fst (others e)).

(** No other coroutine registers [c] (again). *)
Definition quiet `{Platform} (c : WebSocket) : Prop :=
  forall e, ~ In (OpRegister c) (fst (others e)).

(** Calls of [disconnect] in a row. *)
Fixpoint disconnect_times `{Platform} (n : nat) (websocket : WebSocket) : M unit :=
  match n with
  | O => ret tt
  | S n' => disconnect websocket ;; disconnect_times n' websocket
  end.

(** The registry holds each connection at most once, and only connections
    whose handshake has completed. *)
Definition registered_once `{Platform} (w : world) : Prop :=
  NoDup (active w) /\ forall c, In c (active w) -> accepted (env w) c = true.

(** [m] keeps the registry in that state, whatever its outcome. *)
Definition keeps_once `{Platform} {A} (m : M A) : Prop :=
  forall w, registered_once w -> registered_once (snd (m w)).

(** One call of a manager method: [Register] is [connect], [Deregister] is
    [disconnect]. *)
Definition call `{Platform} (o : hub_op) : M unit :=
  match o with
  | OpRegister c => connect c
  | OpDeregister c => disconnect c
  end.

(** The world after a sequence of calls, each made by the driver of its
    connection: a call that raises ends with its driver, and the next call
    is made all the same. *)
Fixpoint calls `{Platform} (ops : list hub_op) (w : world) : world :=
  match ops with
  | [] => w
  | o :: t => calls t (snd (call o w))
  end.

(** No other coroutine touches the registry. *)
Definition silent `{Platform} : Prop :=
  forall e, fst (others e) = [].

(** [m] is a chat message: the dict the read loop builds. *)
Definition is_chat (m : pydict) : Prop :=
  exists text ts, m = chat_message text ts.

(** The entries of [l] other than [c], in order. *)
Definition without (c : WebSocket) (l : list WebSocket) : list WebSocket :=
  filter (fun x => negb (Nat.eqb x c)) l.

(** The entries of [l] that are not in [gone], in order. *)
Definition survivors (gone l : list WebSocket) : list WebSocket :=
  filter (fun x => negb (py_in x gone)) l.

(** ** A simulated platform

    A small executable [Platform], used to run the model on concrete
    scenarios.  The configuration fixes how the sockets behave: those listed
    in [dead] raise on send, those in [stuck] never complete a send, those in
    [refused] fail the handshake; [schedule] lists what the other coroutines
    do to the registry at each await, batch after batch.  The state holds the
    frames to read, a clock that advances by one second at each reading, the
    number of awaits so far and the sockets whose handshake has completed. *)
Record sim_config : Type := mkConfig {
  dead : list WebSocket;
  stuck : list WebSocket;
  refused : list WebSocket;
  schedule : list (list hub_op)
}.

Record sim_env : Type := mkSim {
  inbox : list (reply string);
  clock : nat;
  turn : nat;
  accepted_sockets : list WebSocket
}.

Definition dquote : string := String (Ascii.ascii_of_nat 34) EmptyString.

Definition sim_quote (s : string) : string := dquote ++ s ++ dquote.

Definition sim_render_value (v : pyval) : string :=
  match v with
  | PyStr s => sim_quote s
  | PyObject _ => "null"
  end.

Fixpoint sim_render_items (d : pydict) : string :=
  match d with
  | [] => EmptyString
  | [(k, v)] => sim_quote k ++ ": " ++ sim_render_value v
  | (k, v) :: t => sim_quote k ++ ": " ++ sim_render_value v ++ ", " ++ sim_render_items t
  end.

Definition sim_quote_dict (d : pydict) : string := "{" ++ sim_render_items d ++ "}".

(** Enough of [json.dumps] for the scenarios: no escaping. *)
Definition sim_dumps (d : pydict) : exn + string :=
  if str_only d then inr (sim_quote_dict d) else inl TypeError.

(** The handshake: it fails for a socket of [refused], and for a socket
    that is already accepted. *)
Definition sim_accept (cfg : sim_config) (c : WebSocket) (e : sim_env)
    : reply unit * sim_env :=
  if py_in c (refused cfg) || py_in c (accepted_sockets e) then (Fails RuntimeError, e)
  else (Done tt,
        {| inbox := inbox e; clock := clock e; turn := turn e;
           accepted_sockets := c :: accepted_sockets e |}).

Definition sim_send_text (cfg : sim_config) (c : WebSocket) (data : string) (e : sim_env)
    : reply unit * sim_env :=
  if py_in c (stuck cfg) then (Hangs, e)
  else if py_in c (dead cfg) then (Fails (WebSocketDisconnect 1006), e)
  else (Done tt, e).

Definition sim_receive_text (c : WebSocket) (e : sim_env) : reply string * sim_env :=
  match inbox e with
  | [] => (Hangs, e)
  | r :: t => (r, {| inbox := t; clock := clock e; turn := turn e;
                     accepted_sockets := accepted_sockets e |})
  end.

Definition digit (d : nat) : Ascii.ascii := Ascii.ascii_of_nat (48 + d).

Definition pad2 (n : nat) : string :=
  String (digit (n / 10)) (String (digit (n mod 10)) EmptyString).

(** The clock of the scenarios: a second of 2024-05-01, 10:00 UTC. *)
Definition sim_stamp (n : nat) : string :=
  "2024-05-01T10:00:" ++ pad2 (n mod 60) ++ "+00:00".

Definition sim_utcnow (e : sim_env) : string * sim_env :=
  (sim_stamp (clock e),
   {| inbox := inbox e; clock := S (clock e); turn := turn e;
      accepted_sockets := accepted_sockets e |}).

(** What takes place of a scheduled batch.  A scheduled registration is a
    driver whose handshake completes during the suspension and which then
    registers its socket: it takes place for a socket that is not accepted
    yet, and is dropped otherwise. *)
Fixpoint sim_admit (ops : list hub_op) (acc : list WebSocket)
    : list hub_op * list WebSocket :=
  match ops with
  | [] => ([], acc)
  | OpRegister c :: t =>
      if py_in c acc then sim_admit t acc
      else let (ops', acc') := sim_admit t (c :: acc) in (OpRegister c :: ops', acc')
  | OpDeregister c :: t =>
      let (ops', acc') := sim_admit t acc in (OpDeregister c :: ops', acc')
  end.

Definition sim_others (cfg : sim_config) (e : sim_env) : list hub_op * sim_env :=
  let (ops, acc) := sim_admit (nth (turn e) (schedule cfg) []) (accepted_sockets e) in
  (ops,
   {| inbox := inbox e; clock := clock e; turn := S (turn e); accepted_sockets := acc |}).

Definition sim_accepted (e : sim_env) (c : WebSocket) : bool :=
  py_in c (accepted_sockets e).

Lemma sim_dumps_str :
  forall d, str_only d = true -> exists data, sim_dumps d = inr data.
Proof.
  intros d Hd. unfold sim_dumps. rewrite Hd. eexists. reflexivity.
Qed.

Lemma sim_utcnow_iso8601 :
  forall e, iso8601_utc (fst (sim_utcnow e)) = true.
Proof.
  intros e. unfold sim_utcnow, sim_stamp. cbn [fst].
  assert (Hk : clock e mod 60 < 60) by (apply Nat.mod_upper_bound; discriminate).
  revert Hk. generalize (clock e mod 60). intros k Hk.
  do 60 (destruct k as [|k]; [reflexivity|]). lia.
Qed.

Lemma sim_accept_again (cfg : sim_config) :
  forall c e, sim_accepted e c = true -> fst (sim_accept cfg c e) = Fails RuntimeError.
Proof.
  unfold sim_accepted, sim_accept. intros c e ->. now rewrite orb_true_r.
Qed.

Lemma sim_accept_done (cfg : sim_config) :
  forall c e, fst (sim_accept cfg c e) = Done tt ->
    sim_accepted (snd (sim_accept cfg c e)) c = true.
Proof.
  unfold sim_accepted, sim_accept. intros c e.
  destruct (py_in c (refused cfg) || py_in c (accepted_sockets e)); [discriminate|].
  intros _. cbn. now rewrite Nat.eqb_refl.
Qed.

Lemma sim_accepted_accept (cfg : sim_config) :
  forall c x e, sim_accepted e x = true -> sim_accepted (snd (sim_accept cfg c e)) x = true.
Proof.
  unfold sim_accepted, sim_accept. intros c x e Hx.
  destruct (py_in c (refused cfg) || py_in c (accepted_sockets e)); [exact Hx|].
  cbn. rewrite Hx. now destruct (Nat.eqb x c).
Qed.

Lemma sim_accepted_send_text (cfg : sim_config) :
  forall c d x e, sim_accepted e x = true ->
    sim_accepted (snd (sim_send_text cfg c d e)) x = true.
Proof.
  unfold sim_send_text. intros c d x e Hx.
  destruct (py_in c (stuck cfg)); [exact Hx|].
  destruct (py_in c (dead cfg)); exact Hx.
Qed.

Lemma sim_accepted_receive_text :
  forall c x e, sim_accepted e x = true -> sim_accepted (snd (sim_receive_text c e)) x = true.
Proof.
  unfold sim_receive_text. intros c x e Hx. destruct (inbox e); exact Hx.
Qed.

Lemma sim_accepted_utcnow :
  forall x e, sim_accepted e x = true -> sim_accepted (snd (sim_utcnow e)) x = true.
Proof. intros x e Hx. exact Hx. Qed.

Lemma sim_admit_keeps (ops : list hub_op) :
  forall acc x, py_in x acc = true -> py_in x (snd (sim_admit ops acc)) = true.
Proof.
  induction ops as [|[c|c] t IH]; intros acc x Hx; cbn [sim_admit]; [exact Hx| |].
  - destruct (py_in c acc) eqn:Hc; [now apply IH|].
    specialize (IH (c :: acc) x). destruct (sim_admit t (c :: acc)) as [ops' acc'].
    cbn [snd] in *. apply IH. cbn. rewrite Hx. now destruct (Nat.eqb x c).
  - specialize (IH acc x Hx). now destruct (sim_admit t acc).
Qed.

Lemma sim_admit_registered (ops : list hub_op) :
  forall acc c, In c (registered (fst (sim_admit ops acc))) ->
    py_in c acc = false /\ py_in c (snd (sim_admit ops acc)) = true.
Proof.
  induction ops as [|[x|x] t IH]; intros acc c; cbn [sim_admit]; [intros []| |].
  - destruct (py_in x acc) eqn:Hx; [now apply IH|].
    pose proof (IH (x :: acc) c) as IHc.
    pose proof (sim_admit_keeps t (x :: acc) x) as Hkeep.
    destruct (sim_admit t (x :: acc)) as [ops' acc']. cbn [fst snd registered] in *.
    intros [<-|Hin].
    + split; [exact Hx|]. apply Hkeep. cbn. now rewrite Nat.eqb_refl.
    + destruct (IHc Hin) as [Hnew Hacc]. split; [|exact Hacc].
      cbn in Hnew. now destruct (Nat.eqb c x).
  - specialize (IH acc c). destruct (sim_admit t acc) as [ops' acc'].
    cbn [fst snd registered] in *. exact IH.
Qed.

Lemma sim_admit_once (ops : list hub_op) :
  forall acc, NoDup (registered (fst (sim_admit ops acc))).
Proof.
  induction ops as [|[x|x] t IH]; intros acc; cbn [sim_admit]; [constructor| |].
  - destruct (py_in x acc) eqn:Hx; [now apply IH|].
    pose proof (IH (x :: acc)) as IHx.
    pose proof (sim_admit_registered t (x :: acc) x) as Hreg.
    destruct (sim_admit t (x :: acc)) as [ops' acc']. cbn [fst snd registered] in *.
    constructor; [|exact IHx].
    intros Hin. destruct (Hreg Hin) as [Hnew _]. cbn in Hnew.
    now rewrite Nat.eqb_refl in Hnew.
  - specialize (IH acc). destruct (sim_admit t acc) as [ops' acc'].
    cbn [fst registered] in *. exact IH.
Qed.

(** A batch that takes place is part of the scheduled one. *)
Lemma sim_admit_scheduled (ops : list hub_op) :
  forall acc o, In o (fst (sim_admit ops acc)) -> In o ops.
Proof.
  induction ops as [|[x|x] t IH]; intros acc o; cbn [sim_admit]; [intros []| |].
  - destruct (py_in x acc); [intros Hin; right; now apply IH with acc|].
    specialize (IH (x :: acc) o). destruct (sim_admit t (x :: acc)) as [ops' acc'].
    cbn [fst] in *. intros [<-|Hin]; [now left | right; now apply IH].
  - specialize (IH acc o). destruct (sim_admit t acc) as [ops' acc'].
    cbn [fst] in *. intros [<-|Hin]; [now left | right; now apply IH].
Qed.

Lemma sim_accepted_others (cfg : sim_config) :
  forall x e, sim_accepted e x = true -> sim_accepted (snd (sim_others cfg e)) x = true.
Proof.
  unfold sim_accepted, sim_others. intros x e Hx.
  pose proof (sim_admit_keeps (nth (turn e) (schedule cfg) []) _ x Hx) as Hkeep.
  destruct (sim_admit _ _) as [ops acc]. exact Hkeep.
Qed.

Lemma sim_others_register_accepted (cfg : sim_config) :
  forall e c, In c (registered (fst (sim_others cfg e))) ->
    sim_accepted e c = false /\ sim_accepted (snd (sim_others cfg e)) c = true.
Proof.
  unfold sim_accepted, sim_others. intros e c.
  pose proof (sim_admit_registered (nth (turn e) (schedule cfg) []) (accepted_sockets e) c)
    as Hreg.
  destruct (sim_admit _ _) as [ops acc]. exact Hreg.
Qed.

Lemma sim_others_register_once (cfg : sim_config) :
  forall e, NoDup (registered (fst (sim_others cfg e))).
Proof.
  unfold sim_others. intros e.
  pose proof (sim_admit_once (nth (turn e) (schedule cfg) []) (accepted_sockets e)) as Hnd.
  destruct (sim_admit _ _) as [ops acc]. exact Hnd.
Qed.

Lemma sim_others_scheduled (cfg : sim_config) :
  forall e o, In o (fst (sim_others cfg e)) -> In o (nth (turn e) (schedule cfg) []).
Proof.
  unfold sim_others. intros e o.
  pose proof (sim_admit_scheduled (nth (turn e) (schedule cfg) []) (accepted_sockets e) o)
    as Hin.
  destruct (sim_admit _ _) as [ops acc]. exact Hin.
Qed.

Definition Sim (cfg : sim_config) : Platform := {|
  Env := sim_env;
  json_dumps := sim_dumps;
  json_dumps_str := sim_dumps_str;
  ws_accept := sim_accept cfg;
  ws_send_text := sim_send_text cfg;
  ws_receive_text := sim_receive_text;
  utcnow_isoformat := sim_utcnow;
  utcnow_iso8601 := sim_utcnow_iso8601;
  others := sim_others cfg;
  accepted := sim_accepted;
  ws_accept_again := sim_accept_again cfg;
  ws_accept_done := sim_accept_done cfg;
  accepted_ws_accept := sim_accepted_accept cfg;
  accepted_ws_send_text := sim_accepted_send_text cfg;
  accepted_ws_receive_text := sim_accepted_receive_text;
  accepted_utcnow := sim_accepted_utcnow;
  accepted_others := sim_accepted_others cfg;
  others_register_accepted := sim_others_register_accepted cfg;
  others_register_once := sim_others_register_once cfg
|}.

(** The world of a scenario: a registry, the frames to read, the clock.
    The sockets of the registry are those whose handshake has completed. *)
Definition sim_world (cfg : sim_config) (registry : list WebSocket)
    (frames : list (reply string)) (seconds : nat) : @world (Sim cfg) :=
  @mkWorld (Sim cfg) registry (mkSim frames seconds 0 registry) [].

(** Every socket healthy, no other coroutine. *)
Definition calm : sim_config :=
  {| dead := []; stuck := []; refused := []; schedule := [] |}.

(** Socket 2 raises on every send. *)
Definition two_is_dead : sim_config :=
  {| dead := [2]; stuck := []; refused := []; schedule := [] |}.

(** Socket 2 raises on every send, and a driver registers socket 4 while the
    first send is awaited. *)
Definition two_is_dead_four_joins : sim_config :=
  {| dead := [2]; stuck := []; refused := []; schedule := [[OpRegister 4]] |}.

(** Socket 1 raises on every send; socket 2 never completes a send. *)
Definition two_is_stuck : sim_config :=
  {| dead := [1]; stuck := [2]; refused := []; schedule := [] |}.

(** Socket 7 fails the handshake. *)
Definition seven_is_refused : sim_config :=
  {| dead := []; stuck := []; refused := [7]; schedule := [] |}.

Definition RefusedPlatform : Platform := Sim seven_is_refused.

Definition DeadTwoQuietPlatform : Platform := Sim two_is_dead.

Definition DeadTwoPlatform : Platform := Sim two_is_dead_four_joins.

Definition StuckTwoPlatform : Platform := Sim two_is_stuck.

Definition CalmPlatform : Platform := Sim calm.

(** * The HTTP handlers of [main.py]

    The routes that surround the hub.  The document store ([database.py]),
    [requests], [random], the clock and the builtins they call are fields of
    a [Backend]; a handler is a function in a state-and-exception monad over
    the state of that outside world and a list of the documents it asked the
    store to create. *)

From Stdlib Require Import ZArith DecimalString.

(** ** Values *)

(** A [str] is a [string], a sequence of characters: lengths and slices
    count characters.  A literal of the source that is not ASCII is written
    as it is in the file, and no length is taken of it. *)

(** A [float]: a double, named by its 64 bits.  No arithmetic is done on it
    here. *)
Inductive pyfloat : Type := Float64 (bits : Z).

(** The values the handlers handle: JSON data, and the [datetime] and
    [ObjectId] objects of stored documents. *)
#[warnings="-register-all"]
Inductive pyobj : Type :=
| ONone
| OBool (b : bool)
| OInt (z : Z)
| OFloat (f : pyfloat)
| OStr (s : string)
| ODatetime (t : nat)
| OObjectId (hex : string)
| OList (l : list pyobj)
| ODict (items : list (string * pyobj)).

(** A [dict] with [str] keys, in insertion order: a document, a reply. *)
Definition pydoc : Type := list (string * pyobj).

(** [d.get(k)] *)
Fixpoint dict_get (k : string) (d : pydoc) : option pyobj :=
  match d with
  | [] => None
  | (k', v) :: t => if String.eqb k k' then Some v else dict_get k t
  end.

(** [k in d] *)
Definition dict_has (k : string) (d : pydoc) : bool :=
  match dict_get k d with Some _ => true | None => false end.

(** [d[k] = v]: the value of an existing key is replaced where it is, a new
    key goes to the end. *)
Fixpoint dict_set (k : string) (v : pyobj) (d : pydoc) : pydoc :=
  match d with
  | [] => [(k, v)]
  | (k', v') :: t => if String.eqb k k' then (k', v) :: t else (k', v') :: dict_set k v t
  end.

(** [d.get(k, default)] *)
Definition dict_get_default (k : string) (default : pyobj) (d : pydoc) : pyobj :=
  match dict_get k d with Some v => v | None => default end.

(** [s[:n]] *)
Fixpoint str_prefix (n : nat) (s : string) : string :=
  match n, s with
  | O, _ => EmptyString
  | S _, EmptyString => EmptyString
  | S n', String a t => String a (str_prefix n' t)
  end.

(** [l[:n]] *)
Definition list_prefix {A} (n : nat) (l : list A) : list A := firstn n l.

(** [str(n)] for an [int] *)
Definition str_int (z : Z) : string := NilZero.string_of_int (Z.to_int z).

(** An exception other than [HTTPException]: its class and its [str(e)]. *)
Record pyerr : Type := PyError { err_class : string; err_text : string }.

(** What a handler does: it returns, it raises, or it raises
    [HTTPException(status_code, detail)]. *)
Inductive result (A : Type) : Type :=
| Ok (a : A)
| Err (e : pyerr)
| Http (status_code : nat) (detail : string).
Arguments Ok {A} a.
Arguments Err {A} e.
Arguments Http {A} status_code detail.

(** [type(x).__name__], as error messages print it. *)
Definition type_name (x : pyobj) : string :=
  match x with
  | ONone => "NoneType"
  | OBool _ => "bool"
  | OInt _ => "int"
  | OFloat _ => "float"
  | OStr _ => "str"
  | ODatetime _ => "datetime.datetime"
  | OObjectId _ => "ObjectId"
  | OList _ => "list"
  | ODict _ => "dict"
  end.

(** [x.get(k, default)]: only a [dict] has the method. *)
Definition method_get (x : pyobj) (k : string) (default : pyobj) : pyerr + pyobj :=
  match x with
  | ODict d => inr (dict_get_default k default d)
  | _ => inl (PyError "AttributeError"
                ("'" ++ type_name x ++ "' object has no attribute 'get'"))
  end.

(** The truth value of an optional [int]: [None] and [0] are false. *)
Definition truthy_int (x : option Z) : bool :=
  match x with
  | Some z => negb (Z.eqb z 0)
  | None => false
  end.

(** The truth value of a [str]: the empty string is false. *)
Definition truthy_str (s : string) : bool :=
  match s with EmptyString => false | String _ _ => true end.

(** [seed or None] *)
Definition seed_or_None (seed : option Z) : pyobj :=
  match seed with
  | Some z => if Z.eqb z 0 then ONone else OInt z
  | None => ONone
  end.

(** The reply of [requests.post]: [r.ok], and what [r.json()] does. *)
Record response : Type := mkResponse {
  resp_ok : bool;
  resp_json : pyerr + pyobj
}.

(** ** The request models

    The handlers receive requests that pydantic has validated; [model_dump]
    gives the fields in the order of their declaration. *)

Record ItemCreate : Type := mkItemCreate {
  item_owner : string;
  item_name : string;
  item_rarity : string;
  item_stats : pydoc
}.

Definition ItemCreate_model_dump (item : ItemCreate) : pydoc :=
  [("owner", OStr (item_owner item));
   ("name", OStr (item_name item));
   ("rarity", OStr (item_rarity item));
   ("stats", ODict (item_stats item))].

Record CreateListingRequest : Type := mkCreateListingRequest {
  listing_seller : string;
  listing_item_id : string;
  listing_price : pyfloat
}.

Definition CreateListingRequest_model_dump (payload : CreateListingRequest) : pydoc :=
  [("seller", OStr (listing_seller payload));
   ("item_id", OStr (listing_item_id payload));
   ("price", OFloat (listing_price payload))].

Record TradeActionRequest : Type := mkTradeActionRequest {
  trade_wallet : string;
  trade_listing_id : string
}.

Record BuySellRequest : Type := mkBuySellRequest {
  req_wallet : string;
  req_item_id : string;
  req_price : pyfloat
}.

Definition BuySellRequest_model_dump (req : BuySellRequest) : pydoc :=
  [("wallet", OStr (req_wallet req));
   ("item_id", OStr (req_item_id req));
   ("price", OFloat (req_price req))].

Record MintItemRequest : Type := mkMintItemRequest {
  mint_wallet : string;
  mint_name : string;
  mint_attributes : pydoc
}.

(** ** The backend *)

Class Backend : Type := {
  Store : Type;
  (** [db is not None] *)
  db_is_set : Store -> bool;
  (** [create_document(collection, doc)]: the new id, or the exception. *)
  create_document : string -> pydoc -> Store -> (pyerr + string) * Store;
  (** [get_documents(collection, filter)] *)
  get_documents : string -> pydoc -> Store -> (pyerr + list pydoc) * Store;
  (** [db.list_collection_names()] *)
  list_collection_names : Store -> (pyerr + list string) * Store;
  (** [str(x)] *)
  py_str : pyobj -> string;
  py_str_str : forall s, py_str (OStr s) = s;
  py_str_None : py_str ONone = "None";
  (** [os.getenv(name)] when the module is loaded, and during a call. *)
  getenv_at_import : string -> option string;
  getenv : string -> Store -> option string;
  (** [datetime.now(timezone.utc)], an instant, and its [isoformat()]. *)
  datetime_now : Store -> nat * Store;
  isoformat : nat -> string;
  (** [random.Random(x)] and the methods of the generator. *)
  Rng : Type;
  Random : Z -> Rng;
  rnd_randint : Z -> Z -> Rng -> Z * Rng;
  rnd_randint_range :
    forall a b g, (a <= b)%Z -> (a <= fst (rnd_randint a b g) <= b)%Z;
  (** The position [rnd.choice] takes in a sequence of [n] elements. *)
  rnd_pick : nat -> Rng -> nat * Rng;
  rnd_pick_range : forall n g, 0 < n -> fst (rnd_pick n g) < n;
  (** [rnd.uniform(lo, hi)], the bounds in tenths. *)
  rnd_uniform : nat -> nat -> Rng -> pyfloat * Rng;
  (** [round(x, ndigits)] *)
  py_round : pyfloat -> nat -> pyfloat;
  (** [random.randint(a, b)] on the generator of the module. *)
  random_randint : Z -> Z -> Store -> Z * Store;
  random_randint_range :
    forall a b s, (a <= b)%Z -> (a <= fst (random_randint a b s) <= b)%Z;
  (** [requests.post(url, json=payload, timeout=t)] *)
  requests_post : string -> pydoc -> nat -> Store -> (pyerr + response) * Store;
  (** [x / 1e9] *)
  truediv_1e9 : pyobj -> pyerr + pyfloat;
  (** [str(e)] for an [HTTPException] *)
  str_http_exception : nat -> string -> string
}.

(** ** The monad of the handlers *)

Definition SE (S A : Type) : Type := S -> result A * S.

Definition se_ret {S A} (a : A) : SE S A := fun s => (Ok a, s).

Definition se_bind {S A B} (m : SE S A) (k : A -> SE S B) : SE S B :=
  fun s =>
    match m s with
    | (Ok a, s') => k a s'
    | (Err e, s') => (Err e, s')
    | (Http c d, s') => (Http c d, s')
    end.

Notation "'let*' x ':=' m 'in' k" := (se_bind m (fun x => k))
  (at level 10, x pattern, m at level 100, k at level 200).

(** [raise HTTPException(status_code=c, detail=d)] *)
Definition raise_http {S A} (c : nat) (d : string) : SE S A := fun s => (Http c d, s).

(** [try: m  except Exception as e: handler(str(e))].  [HTTPException] is
    an [Exception] too. *)
Definition se_try `{Backend} {S A} (m : SE S A) (handler : string -> SE S A) : SE S A :=
  fun s =>
    match m s with
    | (Err e, s') => handler (err_text e) s'
    | (Http c d, s') => handler (str_http_exception c d) s'
    | rs => rs
    end.

(** Lifts a value or an exception. *)
Definition se_of {S A} (x : pyerr + A) : SE S A :=
  fun s => match x with inr a => (Ok a, s) | inl e => (Err e, s) end.

(** The state of a handler: the outside world, and the documents it asked
    the store to create, in order. *)
Record server `{Backend} : Type := mkServer {
  store : Store;
  writes : list (string * pydoc)
}.

Definition H `{Backend} (A : Type) : Type := SE server A.

(** A call that acts on the outside world. *)
Definition on_store `{Backend} {A} (call : Store -> (pyerr + A) * Store) : H A :=
  fun s =>
    let (x, st) := call (store s) in
    (match x with inr a => Ok a | inl e => Err e end,
     {| store := st; writes := writes s |}).

Definition on_store_total `{Backend} {A} (call : Store -> A * Store) : H A :=
  fun s =>
    let (a, st) := call (store s) in
    (Ok a, {| store := st; writes := writes s |}).

Definition create `{Backend} (collection : string) (doc : pydoc) : H string :=
  fun s =>
    let (x, st) := create_document collection doc (store s) in
    (match x with inr id => Ok id | inl e => Err e end,
     {| store := st; writes := writes s ++ [(collection, doc)] |}).

Definition now_utc `{Backend} : H nat := on_store_total datetime_now.

(** ** Utility: the generators *)

(** [rnd.choice(seq)] *)
Definition choice `{Backend} {A} (seq : list A) (rnd : Rng) : H (A * Rng) :=
  match seq with
  | [] => se_of (inl (PyError "IndexError" "Cannot choose from an empty sequence"))
  | _ :: _ =>
      let (i, rnd') := rnd_pick (List.length seq) rnd in
      match nth_error seq i with
      | Some x => se_ret (x, rnd')
      | None => se_of (inl (PyError "IndexError" "list index out of range"))
      end
  end.

(** [rnd.randint(a, b)] *)
Definition randint `{Backend} (a b : Z) (rnd : Rng) : H (Z * Rng) :=
  se_ret (rnd_randint a b rnd).

(** [rnd.uniform(lo, hi)], the bounds in tenths. *)
Definition uniform `{Backend} (lo hi : nat) (rnd : Rng) : H (pyfloat * Rng) :=
  se_ret (rnd_uniform lo hi rnd).

(** [random.Random(seed or random.randint(1, 10_000_000))] *)
Definition new_Random `{Backend} (seed : option Z) : H Rng :=
  if truthy_int seed then
    se_ret (Random (match seed with Some z => z | None => 0%Z end))
  else
    let* x := on_store_total (random_randint 1 10000000) in
    se_ret (Random x).

Definition targets : list string :=
  ["Sentinel"; "Wraith"; "Marauder"; "Crawler"; "Revenant"].

Definition zones : list string :=
  ["Obsidian Flats"; "Neon Mire"; "Fracture Ridge"; "Echo Dunes"].

Definition reward_items : list string :=
  ["Ion Blade"; "Aether Core"; "Flux Capacitor"].

Definition token_reward (amount : Z) : pyobj :=
  ODict [("type", OStr "token"); ("amount", OInt amount)].

Definition item_reward (name : string) : pyobj :=
  ODict [("type", OStr "item"); ("name", OStr name)].

(** The dict [generate_quest] returns. *)
Definition quest_dict (target zone : string) (target_count : Z) (reward : pyobj)
    (expires_at : string) : pydoc :=
  [("title", OStr ("Cull the " ++ target));
   ("zone", OStr zone);
   ("objective", OStr "Eliminate hostiles and recover components");
   ("target_count", OInt target_count);
   ("reward", reward);
   ("expires_at", OStr expires_at)].

Definition generate_quest `{Backend} (seed : option Z) : H pydoc :=
  let* rnd := new_Random seed in
  let* (amount, rnd) := randint 5 25 rnd in
  let* (item, rnd) := choice reward_items rnd in
  let rewards := [token_reward amount; item_reward item] in
  let* (target, rnd) := choice targets rnd in
  let* (zone, rnd) := choice zones rnd in
  let* (target_count, rnd) := randint 3 12 rnd in
  let* (reward, rnd) := choice rewards rnd in
  let* now := now_utc in
  se_ret (quest_dict target zone target_count reward (isoformat now)).

Definition weathers : list string :=
  ["ion-storm"; "clear"; "acid-rain"; "solar-flare"; "dust"].

Definition resource (type : string) (richness : pyfloat) : pyobj :=
  ODict [("type", OStr type); ("richness", OFloat richness)].

(** The dict [generate_zone] returns. *)
Definition zone_dict (number : Z) (weather : string) (density : pyfloat)
    (resources : list pyobj) : pydoc :=
  [("name", OStr ("Zone-" ++ str_int number));
   ("weather", OStr weather);
   ("enemy_density", OFloat density);
   ("resources", OList resources)].

Definition generate_zone `{Backend} (seed : option Z) : H pydoc :=
  let* rnd := new_Random seed in
  let* (weather, rnd) := choice weathers rnd in
  let* (density, rnd) := uniform 1 10 rnd in
  let* (r1, rnd) := uniform 0 10 rnd in
  let* (r2, rnd) := uniform 0 10 rnd in
  let* (r3, rnd) := uniform 0 10 rnd in
  let resources :=
    [resource "ferrocrete" (py_round r1 2);
     resource "aether" (py_round r2 2);
     resource "plasma" (py_round r3 2)] in
  let* (number, rnd) := randint 100 999 rnd in
  se_ret (zone_dict number weather (py_round density 2) resources).

(** ** Routes *)

(** [POST /api/player/login-wallet] *)
Definition login_wallet `{Backend} (address : string) : H pydoc :=
  if negb (truthy_str address) || Nat.ltb (String.length address) 20 then
    raise_http 400 "Invalid wallet address"
  else
    let* now := now_utc in
    let player_doc :=
      [("address", OStr address);
       ("last_login", ODatetime now);
       ("stats", ODict [("level", OInt 1); ("xp", OInt 0); ("hp", OInt 100)])] in
    let* _ := create "player" player_doc in
    se_ret [("ok", OBool true); ("player", ODict [("address", OStr address)])].

(** [GET /api/ai/quest] *)
Definition ai_quest `{Backend} (seed : option Z) : H pydoc :=
  let* quest := generate_quest seed in
  let* _ := create "quest" (dict_set "seed" (seed_or_None seed) quest) in
  se_ret quest.

(** [GET /api/ai/zone] *)
Definition ai_zone `{Backend} (seed : option Z) : H pydoc :=
  let* zone := generate_zone seed in
  let* _ := create "zone" (dict_set "seed" (seed_or_None seed) zone) in
  se_ret zone.

(** [POST /api/item/create] *)
Definition create_item `{Backend} (item : ItemCreate) : H pydoc :=
  let doc := ItemCreate_model_dump item in
  let* t1 := now_utc in
  let doc := dict_set "created_at" (ODatetime t1) doc in
  let* t2 := now_utc in
  let doc := dict_set "updated_at" (ODatetime t2) doc in
  let* _id := create "item" doc in
  se_ret [("ok", OBool true); ("id", OStr _id)].

(** The inner function [normalize] of [get_inventory]. *)
Definition normalize `{Backend} (doc : pydoc) : pydoc :=
  match dict_get "_id" doc with
  | Some v => dict_set "_id" (OStr (py_str v)) doc
  | None => doc
  end.

(** [GET /api/inventory/{wallet}] *)
Definition get_inventory `{Backend} (wallet : string) : H pydoc :=
  let* items := on_store (get_documents "item" [("owner", OStr wallet)]) in
  se_ret [("items", OList (map (fun i => ODict (normalize i)) items))].

(** The inner function [n] of [listings]. *)
Definition listings_n `{Backend} (d : pydoc) : pydoc :=
  dict_set "_id" (OStr (py_str (dict_get_default "_id" ONone d))) d.

(** [GET /api/marketplace/listings] *)
Definition listings `{Backend} : H pydoc :=
  let* docs := on_store (get_documents "listing" []) in
  se_ret [("listings", OList (map (fun x => ODict (listings_n x)) docs))].

(** [POST /api/marketplace/create] *)
Definition create_listing `{Backend} (payload : CreateListingRequest) : H pydoc :=
  let listing := CreateListingRequest_model_dump payload in
  let* t := now_utc in
  let listing := dict_set "created_at" (ODatetime t) listing in
  let listing := dict_set "status" (OStr "open") listing in
  let* _id := create "listing" listing in
  se_ret [("ok", OBool true); ("id", OStr _id)].

(** [POST /api/marketplace/buy] *)
Definition buy_listing `{Backend} (payload : TradeActionRequest) : H pydoc :=
  let* t := now_utc in
  let doc :=
    [("action", OStr "buy");
     ("wallet", OStr (trade_wallet payload));
     ("listing_id", OStr (trade_listing_id payload));
     ("time", ODatetime t)] in
  let* _ := create "trade" doc in
  se_ret [("ok", OBool true)].

(** [SOLANA_RPC = os.getenv("SOLANA_RPC", "https://api.mainnet-beta.solana.com")] *)
Definition SOLANA_RPC `{Backend} : string :=
  match getenv_at_import "SOLANA_RPC" with
  | Some url => url
  | None => "https://api.mainnet-beta.solana.com"
  end.

(** [GET /getBalance] *)
Definition get_balance `{Backend} (address : string) : H pydoc :=
  se_try
    (let payload :=
       [("jsonrpc", OStr "2.0"); ("id", OInt 1); ("method", OStr "getBalance");
        ("params", OList [OStr address])] in
     let* r := on_store (requests_post SOLANA_RPC payload 8) in
     let* lamports :=
       (if resp_ok r then
          let* body := se_of (resp_json r) in
          let* result := se_of (method_get body "result" (ODict [])) in
          se_of (method_get result "value" (OInt 0))
        else se_ret (OInt 0)) in
     let* sol := se_of (truediv_1e9 lamports) in
     se_ret [("address", OStr address); ("lamports", lamports); ("sol", OFloat sol)])
    (fun text =>
       se_ret [("address", OStr address); ("lamports", OInt 0); ("sol", OInt 0);
               ("error", OStr (str_prefix 120 text))]).

(** [POST /buyItem] *)
Definition buy_item `{Backend} (req : BuySellRequest) : H pydoc :=
  let doc := BuySellRequest_model_dump req in
  let doc := dict_set "action" (OStr "buy") doc in
  let* t := now_utc in
  let doc := dict_set "time" (ODatetime t) doc in
  let* _ := create "token_trades" doc in
  se_ret [("ok", OBool true)].

(** [POST /sellItem] *)
Definition sell_item `{Backend} (req : BuySellRequest) : H pydoc :=
  let doc := BuySellRequest_model_dump req in
  let doc := dict_set "action" (OStr "sell") doc in
  let* t := now_utc in
  let doc := dict_set "time" (ODatetime t) doc in
  let* _ := create "token_trades" doc in
  se_ret [("ok", OBool true)].

(** [POST /mintItemNFT] *)
Definition mint_item_nft `{Backend} (req : MintItemRequest) : H pydoc :=
  let* t := now_utc in
  let record :=
    [("wallet", OStr (mint_wallet req));
     ("name", OStr (mint_name req));
     ("attributes", ODict (mint_attributes req));
     ("intent", OStr "mint_nft");
     ("time", ODatetime t)] in
  let* _ := create "nft_mint_intents" record in
  se_ret [("ok", OBool true);
          ("note", OStr "Recorded mint intent. Use deployment scripts to mint on-chain.")].

(** [GET /test]: the local variable [response] is part of the state while
    the body runs. *)
Definition T `{Backend} (A : Type) : Type := SE (server * pydoc) A.

(** [response[k] = v] *)
Definition assign `{Backend} (k : string) (v : pyobj) : T unit :=
  fun sr => (Ok tt, (fst sr, dict_set k v (snd sr))).

Definition t_getenv `{Backend} (name : string) : T (option string) :=
  fun sr => (Ok (getenv name (store (fst sr))), sr).

Definition t_db_is_set `{Backend} : T bool :=
  fun sr => (Ok (db_is_set (store (fst sr))), sr).

Definition t_list_collection_names `{Backend} : T (list string) :=
  fun sr =>
    let (x, st) := list_collection_names (store (fst sr)) in
    (match x with inr l => Ok l | inl e => Err e end,
     ({| store := st; writes := writes (fst sr) |}, snd sr)).

Definition response0 : pydoc :=
  [("backend", OStr "✅ Running");
   ("database", OStr "❌ Not Available");
   ("database_url", ONone);
   ("database_name", ONone);
   ("connection_status", OStr "Not Connected");
   ("collections", OList [])].

Definition test_database_body `{Backend} : T unit :=
  se_try
    (let* up := t_db_is_set in
     if up then
       let* _ := assign "database" (OStr "✅ Available") in
       let* url := t_getenv "DATABASE_URL" in
       let* _ := assign "database_url"
                   (OStr (match url with
                          | Some (String _ _) => "✅ Set"
                          | _ => "❌ Not Set"
                          end)) in
       let* name := t_getenv "DATABASE_NAME" in
       let* _ := assign "database_name"
                   (OStr (match name with
                          | Some (String a t) => String a t
                          | _ => "❌ Not Set"
                          end)) in
       se_try
         (let* collections := t_list_collection_names in
          let* _ := assign "collections" (OList (map OStr (list_prefix 10 collections))) in
          let* _ := assign "database" (OStr "✅ Connected & Working") in
          assign "connection_status" (OStr "Connected"))
         (fun text =>
            assign "database" (OStr ("⚠️  Connected but Error: " ++ str_prefix 80 text)))
     else
       assign "database" (OStr "⚠️  Available but not initialized"))
    (fun text => assign "database" (OStr ("❌ Error: " ++ str_prefix 80 text))).

Definition test_database `{Backend} : H pydoc :=
  fun s =>
    match test_database_body (s, response0) with
    | (Ok _, (s', response)) => (Ok response, s')
    | (Err e, (s', _)) => (Err e, s')
    | (Http c d, (s', _)) => (Http c d, s')
    end.

(** ** Reading the handlers *)

(** A handler that records one document: whatever the store answers, it
    asks for exactly one document of [collection] to be created; the
    document holds the [fields] of the request; the handler returns its
    reply when the store gave an id, and lets the exception of the store
    through when it raised. *)
Definition records_one `{Backend} (h : H pydoc) (collection : string) (fields : pydoc)
    (s : server) : Prop :=
  exists doc st answer st',
    create_document collection doc st = (answer, st') /\
    (forall k v, dict_get k fields = Some v -> dict_get k doc = Some v) /\
    exists r,
      h s = (r, {| store := st'; writes := writes s ++ [(collection, doc)] |}) /\
      match answer with
      | inr _ => exists reply, r = Ok reply /\ dict_get "ok" reply = Some (OBool true)
      | inl e => r = Err e
      end.

(** What [test_database] reports for [DATABASE_URL] and for
    [DATABASE_NAME]: a variable that is unset or empty counts as not set. *)
Definition url_text (url : option string) : string :=
  match url with
  | Some (String _ _) => "✅ Set"
  | _ => "❌ Not Set"
  end.

Definition name_text (name : option string) : string :=
  match name with
  | Some (String a t) => String a t
  | _ => "❌ Not Set"
  end.

(** ** A simulated backend

    A small executable [Backend] for concrete scenarios: a store that keeps
    the documents it is given (or is down), a table of environment
    variables, a clock that advances by one second at each reading, linear
    congruential generators, and an RPC node that gives a fixed reply. *)
Record sim_store : Type := mkStore {
  documents : list (string * pydoc);
  db_up : bool;
  environ : list (string * string);
  instant : nat;
  module_rng : Z;
  rpc : pyerr + response
}.

Definition lcg (g : Z) : Z := ((g * 1103515245 + 12345) mod 2147483648)%Z.

Definition sim_rnd_randint (a b g : Z) : Z * Z :=
  ((a + g mod (b - a + 1))%Z, lcg g).

Definition sim_rnd_pick (n : nat) (g : Z) : nat * Z :=
  (Z.to_nat (g mod Z.of_nat n), lcg g).

Definition sim_rnd_uniform (lo hi : nat) (g : Z) : pyfloat * Z :=
  (Float64 g, lcg g).

Definition sim_random_randint (a b : Z) (s : sim_store) : Z * sim_store :=
  ((a + module_rng s mod (b - a + 1))%Z,
   {| documents := documents s; db_up := db_up s; environ := environ s;
      instant := instant s; module_rng := lcg (module_rng s); rpc := rpc s |}).

Definition sim_datetime_now (s : sim_store) : nat * sim_store :=
  (instant s,
   {| documents := documents s; db_up := db_up s; environ := environ s;
      instant := S (instant s); module_rng := module_rng s; rpc := rpc s |}).

Definition database_down : pyerr :=
  PyError "Exception" "Database not available".

Definition sim_create_document (collection : string) (doc : pydoc) (s : sim_store)
    : (pyerr + string) * sim_store :=
  if db_up s then
    let id := str_int (Z.of_nat (List.length (documents s))) in
    (inr id,
     {| documents := documents s ++ [(collection, ("_id", OObjectId id) :: doc)];
        db_up := db_up s; environ := environ s;
        instant := instant s; module_rng := module_rng s; rpc := rpc s |})
  else (inl database_down, s).

(** A document matches a filter when it holds the strings of the filter. *)
Definition sim_matches (filter doc : pydoc) : bool :=
  forallb (fun kv =>
             match snd kv, dict_get (fst kv) doc with
             | OStr a, Some (OStr b) => String.eqb a b
             | _, _ => false
             end) filter.

Definition sim_get_documents (collection : string) (filter : pydoc) (s : sim_store)
    : (pyerr + list pydoc) * sim_store :=
  if db_up s then
    (inr (map snd (List.filter (fun cd => String.eqb (fst cd) collection
                                          && sim_matches filter (snd cd))
                     (documents s))), s)
  else (inl database_down, s).

Definition sim_list_collection_names (s : sim_store)
    : (pyerr + list string) * sim_store :=
  if db_up s then (inr (nodup string_dec (map fst (documents s))), s)
  else (inl database_down, s).

Definition sim_py_str (x : pyobj) : string :=
  match x with
  | ONone => "None"
  | OBool true => "True"
  | OBool false => "False"
  | OInt z => str_int z
  | OStr s => s
  | OObjectId hex => hex
  | ODatetime t => sim_stamp t
  | _ => "..."
  end.

Definition sim_getenv (name : string) (s : sim_store) : option string :=
  match List.find (fun kv => String.eqb (fst kv) name) (environ s) with
  | Some kv => Some (snd kv)
  | None => None
  end.

Definition sim_truediv_1e9 (x : pyobj) : pyerr + pyfloat :=
  match x with
  | OInt z => inr (Float64 z)
  | OBool b => inr (Float64 (if b then 1 else 0))
  | OFloat f => inr f
  | _ => inl (PyError "TypeError"
                ("unsupported operand type(s) for /: '" ++ type_name x ++ "' and 'float'"))
  end.

Lemma sim_rnd_randint_range :
  forall a b g, (a <= b)%Z -> (a <= fst (sim_rnd_randint a b g) <= b)%Z.
Proof.
  intros a b g Hab. unfold sim_rnd_randint. cbn [fst].
  pose proof (Z.mod_pos_bound g (b - a + 1)). lia.
Qed.

Lemma sim_rnd_pick_range :
  forall n g, 0 < n -> fst (sim_rnd_pick n g) < n.
Proof.
  intros n g Hn. unfold sim_rnd_pick. cbn [fst].
  pose proof (Z.mod_pos_bound g (Z.of_nat n)). lia.
Qed.

Lemma sim_random_randint_range :
  forall a b s, (a <= b)%Z -> (a <= fst (sim_random_randint a b s) <= b)%Z.
Proof.
  intros a b s Hab. unfold sim_random_randint. cbn [fst].
  pose proof (Z.mod_pos_bound (module_rng s) (b - a + 1)). lia.
Qed.

Definition SimBackend : Backend := {|
  Store := sim_store;
  db_is_set := db_up;
  create_document := sim_create_document;
  get_documents := sim_get_documents;
  list_collection_names := sim_list_collection_names;
  py_str := sim_py_str;
  py_str_str := fun s => eq_refl;
  py_str_None := eq_refl;
  getenv_at_import := fun _ => None;
  getenv := sim_getenv;
  datetime_now := sim_datetime_now;
  isoformat := sim_stamp;
  Rng := Z;
  Random := fun x => x;
  rnd_randint := sim_rnd_randint;
  rnd_randint_range := sim_rnd_randint_range;
  rnd_pick := sim_rnd_pick;
  rnd_pick_range := sim_rnd_pick_range;
  rnd_uniform := sim_rnd_uniform;
  py_round := fun f _ => f;
  random_randint := sim_random_randint;
  random_randint_range := sim_random_randint_range;
  requests_post := fun _ _ _ s => (rpc s, s);
  truediv_1e9 := sim_truediv_1e9;
  str_http_exception := fun c d => str_int (Z.of_nat c) ++ ": " ++ d
|}.

(** The reply of an RPC node that reports [lamports]. *)
Definition rpc_balance (lamports : Z) : pyerr + response :=
  inr {| resp_ok := true;
         resp_json := inr (ODict [("jsonrpc", OStr "2.0");
                                  ("result", ODict [("context", ODict [("slot", OInt 1)]);
                                                    ("value", OInt lamports)]);
                                  ("id", OInt 1)]) |}.

(** A scenario of the handlers: a running store with some documents. *)
Definition sim_server (docs : list (string * pydoc)) (up : bool)
    (vars : list (string * string)) (reply : pyerr + response) : @server SimBackend :=
  @mkServer SimBackend (mkStore docs up vars 0 42 reply) [].

(** * Properties *)

Local Open Scope list_scope.

(** ** The list operations *)

Section ListOps.

Lemma py_in_In (x : WebSocket) (l : list WebSocket) :
  py_in x l = true <-> In x l.
Proof.
  induction l as [|y t IH]; simpl.
  - split; [discriminate | tauto].
  - destruct (Nat.eqb_spec x y) as [->|Hne].
    + split; auto.
    + rewrite IH. split; [auto | intros [Hy|Ht]; [congruence | exact Ht]].
Qed.

Lemma py_in_entries (x : WebSocket) (l : list WebSocket) :
  py_in x l = false <-> entries x l = 0.
Proof.
  unfold entries. rewrite <- count_occ_not_In, <- py_in_In.
  destruct (py_in x l); split; congruence.
Qed.

(** [remove] succeeds on a list that holds the element. *)
Lemma py_remove_present (x : WebSocket) (l : list WebSocket) :
  py_in x l = true -> exists l', py_remove x l = Some l'.
Proof.
  induction l as [|y t IH]; simpl; [discriminate|].
  destruct (Nat.eqb x y); [eauto|].
  intros Hin. destruct (IH Hin) as [t' ->]. eauto.
Qed.

(** [remove] takes away one entry of the element and nothing else. *)
Lemma py_remove_entries (x : WebSocket) (l l' : list WebSocket) :
  py_remove x l = Some l' ->
  forall y, entries y l' = if Nat.eq_dec x y then pred (entries y l) else entries y l.
Proof.
  unfold entries. revert l'.
  induction l as [|z t IH]; simpl; intros l' Hrm y; [discriminate|].
  destruct (Nat.eqb_spec x z) as [->|Hne].
  - injection Hrm as <-.
    destruct (Nat.eq_dec z y) as [->|Hzy]; reflexivity.
  - destruct (py_remove x t) as [t'|] eqn:Ht; [|discriminate].
    injection Hrm as <-. simpl. specialize (IH t' eq_refl y).
    destruct (Nat.eq_dec z y) as [->|Hzy].
    + destruct (Nat.eq_dec x y) as [->|_]; [congruence|]. now rewrite IH.
    + exact IH.
Qed.


Lemma entries_nil (c : WebSocket) : entries c [] = 0.
Proof. reflexivity. Qed.

Lemma entries_one (c x : WebSocket) :
  entries x [c] = if Nat.eq_dec c x then 1 else 0.
Proof. unfold entries. simpl. destruct (Nat.eq_dec c x); reflexivity. Qed.

Lemma entries_app (c : WebSocket) (l1 l2 : list WebSocket) :
  entries c (l1 ++ l2) = entries c l1 + entries c l2.
Proof. unfold entries. apply count_occ_app. Qed.

Lemma NoDup_entries (l : list WebSocket) :
  NoDup l <-> forall c, entries c l <= 1.
Proof. unfold entries. apply NoDup_count_occ. Qed.

(** The effect of one manager operation on the number of entries. *)
Lemma apply_op_register_entries (l : list WebSocket) (c x : WebSocket) :
  entries x (apply_op l (OpRegister c)) =
  entries x l + (if Nat.eq_dec c x then 1 else 0).
Proof.
  simpl. unfold py_append. now rewrite entries_app, entries_one.
Qed.

Lemma apply_op_deregister_entries (l : list WebSocket) (c x : WebSocket) :
  entries x (apply_op l (OpDeregister c)) =
  if Nat.eq_dec c x then pred (entries x l) else entries x l.
Proof.
  simpl. destruct (py_in c l) eqn:Hin.
  - destruct (py_remove_present _ _ Hin) as [l' Hl']. rewrite Hl'.
    now apply py_remove_entries.
  - destruct (Nat.eq_dec c x) as [->|_]; [|reflexivity].
    apply py_in_entries in Hin. now rewrite Hin.
Qed.


(** Operations that do not register [x] cannot add entries of [x]. *)
Lemma run_ops_entries_le (ops : list hub_op) (x : WebSocket) :
  ~ In (OpRegister x) ops ->
  forall l, entries x (run_ops ops l) <= entries x l.
Proof.
  unfold run_ops.
  induction ops as [|o t IH]; simpl; intros Hq l; [lia|].
  assert (Ht : ~ In (OpRegister x) t) by tauto.
  specialize (IH Ht (apply_op l o)).
  destruct o as [c|c].
  - rewrite apply_op_register_entries in IH.
    destruct (Nat.eq_dec c x) as [->|_]; [tauto | lia].
  - rewrite apply_op_deregister_entries in IH.
    destruct (Nat.eq_dec c x); lia.
Qed.

End ListOps.

(** ** The manager *)

Section Manager.
Context `{P : Platform}.

(** [disconnect] always returns, and acts on the registry as one
    [OpDeregister]; the rest of the world is untouched. *)
Lemma disconnect_returns (c : WebSocket) (w : world) :
  exists w',
    disconnect c w = (Ret tt, w') /\
    active w' = apply_op (active w) (OpDeregister c) /\
    env w' = env w /\ log w' = log w.
Proof.
  unfold disconnect. simpl. destruct (py_in c (active w)) eqn:Hin.
  - destruct (py_remove_present _ _ Hin) as [l' ->]. eexists. simpl. eauto.
  - eexists. eauto.
Qed.

(** A connection the registry does not hold: [disconnect] changes nothing. *)
Lemma disconnect_absent (c : WebSocket) (w : world) :
  ~ In c (active w) -> disconnect c w = (Ret tt, w).
Proof.
  intros Hnin. unfold disconnect.
  destruct (py_in c (active w)) eqn:Hin; [|reflexivity].
  apply py_in_In in Hin. contradiction.
Qed.

Lemma disconnect_times_absent (n : nat) (c : WebSocket) (w : world) :
  ~ In c (active w) -> disconnect_times n c w = (Ret tt, w).
Proof.
  intros Hnin. induction n as [|n IH]; simpl; [reflexivity|].
  unfold bind. now rewrite disconnect_absent.
Qed.

(** One iteration of the loop of [broadcast] on a send that does not hang:
    it returns, leaves one send in the trace, and a failed send costs the
    target one registry entry. *)
Lemma deliver_returns (data : string) (c : WebSocket) (w : world) :
  fst (ws_send_text c data (env w)) <> Hangs ->
  exists w',
    deliver data c w = (Ret tt, w') /\
    log w' = log w ++ [EvSend c data (fst (ws_send_text c data (env w)))] /\
    forall x, quiet x ->
      entries x (active w') <=
      entries x (active w) -
      entries x (failed_to [EvSend c data (fst (ws_send_text c data (env w)))]).
Proof.
  intros Hresp.
  unfold deliver, try_except, send_text, await.
  destruct (ws_send_text c data (env w)) as [r e1] eqn:Hsend.
  cbn [fst] in *.
  destruct (others e1) as [ops e2] eqn:Hoth.
  assert (Hops : forall x, quiet x ->
            entries x (run_ops ops (active w)) <= entries x (active w)).
  { intros x Hq. apply run_ops_entries_le. specialize (Hq e1).
    now rewrite Hoth in Hq. }
  destruct r as [[]|e|]; cbn [of_reply]; [| |contradiction].
  - eexists. repeat split.
    intros x Hq. cbn [active failed_to]. specialize (Hops x Hq).
    rewrite entries_nil. lia.
  - match goal with |- context [disconnect c ?w1] =>
      destruct (disconnect_returns c w1) as (w' & Hd & Hact & Henv & Hlog)
    end.
    cbn [Exception]. rewrite Hd. exists w'. cbn [active env log] in *.
    repeat split; [exact Hlog |].
    intros x Hq. cbn [failed_to]. rewrite Hact, apply_op_deregister_entries.
    specialize (Hops x Hq). rewrite entries_one.
    destruct (Nat.eq_dec c x); lia.
Qed.

Lemma failed_to_app (evs1 evs2 : list event) :
  failed_to (evs1 ++ evs2) = failed_to evs1 ++ failed_to evs2.
Proof.
  induction evs1 as [|[m|c d [a|e|]] t IH]; simpl; congruence.
Qed.

Lemma sent_to_attempts (data : string) (l : list WebSocket) (evs : list event) :
  Forall2 (attempt data) l evs -> sent_to evs = l /\ dumped evs = [].
Proof.
  induction 1 as [|c ev l evs (r & e & -> & _) _ [IH1 IH2]]; simpl; [auto|].
  now rewrite IH1, IH2.
Qed.

(** The loop of [broadcast] over a snapshot of responsive connections. *)
Lemma for_each_deliver_returns (data : string) (snapshot : list WebSocket) :
  responsive snapshot ->
  forall w, exists w' evs,
    for_each snapshot (deliver data) w = (Ret tt, w') /\
    log w' = log w ++ evs /\
    Forall2 (attempt data) snapshot evs /\
    forall x, quiet x ->
      entries x (active w') <= entries x (active w) - entries x (failed_to evs).
Proof.
  induction snapshot as [|c t IH]; intros Hresp w.
  - exists w, []. simpl. rewrite app_nil_r.
    repeat split; [constructor | intros; rewrite entries_nil; lia].
  - assert (Hc : fst (ws_send_text c data (env w)) <> Hangs)
      by (apply Hresp; now left).
    destruct (deliver_returns data c w Hc) as (w1 & Hd & Hlog1 & Hcnt1).
    assert (Ht : responsive t) by (intros x Hx; apply Hresp; now right).
    destruct (IH Ht w1) as (w' & evs & Hloop & Hlog & Hatt & Hcnt).
    set (r := fst (ws_send_text c data (env w))) in *.
    exists w', (EvSend c data r :: evs). cbn [for_each]. unfold bind. rewrite Hd.
    repeat split.
    + exact Hloop.
    + rewrite Hlog, Hlog1, <- app_assoc. reflexivity.
    + constructor; [exists r, (env w); auto | exact Hatt].
    + intros x Hq. specialize (Hcnt1 x Hq). specialize (Hcnt x Hq).
      change (EvSend c data r :: evs) with ([EvSend c data r] ++ evs).
      rewrite failed_to_app, entries_app. lia.
Qed.

(** [broadcast] of a serializable message to responsive connections. *)
Lemma broadcast_returns (message : pydict) (data : string) (w : world) :
  json_dumps message = inr data ->
  responsive (active w) ->
  exists w' evs,
    broadcast message w = (Ret tt, w') /\
    log w' = log w ++ EvDumps message :: evs /\
    Forall2 (attempt data) (active w) evs /\
    forall x, quiet x ->
      entries x (active w') <= entries x (active w) - entries x (failed_to evs).
Proof.
  intros Hjson Hresp.
  unfold broadcast, bind, dumps. rewrite Hjson. simpl.
  match goal with |- context [for_each _ _ ?w1] =>
    destruct (for_each_deliver_returns data (active w) Hresp w1)
      as (w' & evs & Hloop & Hlog & Hatt & Hcnt)
  end.
  exists w', evs. simpl in *. rewrite Hloop.
  repeat split; [|exact Hatt|exact Hcnt].
  rewrite Hlog, <- app_assoc. reflexivity.
Qed.

End Manager.

(** ** [broadcast] *)

Section Broadcast.
Context `{P : Platform}.

(** A target whose sends always raise fails as often as it is attempted. *)
Lemma attempts_failing (data : string) (c : WebSocket)
    (l : list WebSocket) (evs : list event) :
  Forall2 (attempt data) l evs -> failing c ->
  entries c (failed_to evs) = entries c l.
Proof.
  intros Hatt Hfail.
  induction Hatt as [|c0 ev l evs (r & e & -> & Hr & _) _ IH]; [reflexivity|].
  change (c0 :: l) with ([c0] ++ l). rewrite entries_app, entries_one.
  destruct (Nat.eq_dec c0 c) as [->|Hne].
  - destruct (Hfail data e) as [x Hx]. rewrite Hx in Hr. subst r.
    cbn [failed_to]. change (c :: failed_to evs) with ([c] ++ failed_to evs).
    rewrite entries_app, entries_one, IH.
    destruct (Nat.eq_dec c c); [reflexivity | congruence].
  - destruct r as [a|x|]; cbn [failed_to]; try exact IH.
    change (c0 :: failed_to evs) with ([c0] ++ failed_to evs).
    rewrite entries_app, entries_one, IH.
    destruct (Nat.eq_dec c0 c); [congruence | reflexivity].
Qed.

(** A target whose sends always complete gets the message. *)
Lemma attempts_healthy (data : string) (c : WebSocket)
    (l : list WebSocket) (evs : list event) :
  Forall2 (attempt data) l evs -> healthy c -> In c l ->
  In c (delivered_to evs).
Proof.
  intros Hatt Hok.
  induction Hatt as [|c0 ev l evs (r & e & -> & Hr & _) _ IH]; [contradiction|].
  intros [->|Hin].
  - rewrite (Hok data e) in Hr. subst r. now left.
  - specialize (IH Hin). destruct r as [a|x|]; cbn [delivered_to]; auto.
    now right.
Qed.

End Broadcast.

(** ** Each connection at most once

    The registry is changed by [connect], which appends after a handshake
    that completed, and by [disconnect], which removes.  Starlette accepts a
    socket once, so what is appended is never in the list already. *)

Section Once.
Context `{P : Platform}.

Lemma registered_In (ops : list hub_op) (c : WebSocket) :
  In c (registered ops) <-> In (OpRegister c) ops.
Proof.
  induction ops as [|[x|x] t IH]; cbn [registered In].
  - tauto.
  - rewrite IH. split; (intros [Hx|Ht]; [left; congruence | now right]).
  - rewrite IH. split; [auto | intros [Hx|Ht]; [discriminate | exact Ht]].
Qed.

(** A batch of operations adds at most the entries it registers. *)
Lemma run_ops_entries_registered (ops : list hub_op) (x : WebSocket) :
  forall l, entries x (run_ops ops l) <= entries x l + entries x (registered ops).
Proof.
  unfold run_ops. induction ops as [|[c|c] t IH]; intros l; cbn [fold_left registered].
  - lia.
  - specialize (IH (apply_op l (OpRegister c))).
    rewrite apply_op_register_entries in IH.
    change (c :: registered t) with ([c] ++ registered t).
    rewrite entries_app, entries_one. lia.
  - specialize (IH (apply_op l (OpDeregister c))).
    rewrite apply_op_deregister_entries in IH.
    destruct (Nat.eq_dec c x); lia.
Qed.

Lemma entries_absent (x : WebSocket) (l : list WebSocket) :
  ~ In x l <-> entries x l = 0.
Proof. unfold entries. apply count_occ_not_In. Qed.

Lemma entries_present (x : WebSocket) (l : list WebSocket) :
  In x l <-> 0 < entries x l.
Proof. unfold entries. apply count_occ_In. Qed.

(** What the other coroutines do during a suspension. *)
Lemma others_keep_once (l : list WebSocket) (e : Env) :
  NoDup l -> (forall c, In c l -> accepted e c = true) ->
  NoDup (run_ops (fst (others e)) l) /\
  (forall c, In c (run_ops (fst (others e)) l) -> accepted (snd (others e)) c = true) /\
  (forall c, accepted e c = true -> ~ In c (registered (fst (others e)))).
Proof.
  intros Hnd Hacc.
  assert (Hnew : forall c, accepted e c = true -> ~ In c (registered (fst (others e)))).
  { intros c Hc Hin. destruct (others_register_accepted e c Hin) as [Hf _]. congruence. }
  split; [|split; [|exact Hnew]].
  - apply NoDup_entries. intros x.
    pose proof (run_ops_entries_registered (fst (others e)) x l) as Hle.
    pose proof (proj1 (NoDup_entries l) Hnd x) as Hl.
    pose proof (proj1 (NoDup_entries _) (others_register_once e) x) as Hr.
    destruct (in_dec Nat.eq_dec x l) as [Hin|Hnin].
    + assert (entries x (registered (fst (others e))) = 0)
        by (apply entries_absent, Hnew, Hacc, Hin).
      lia.
    + apply entries_absent in Hnin. lia.
  - intros c Hin. apply entries_present in Hin.
    pose proof (run_ops_entries_registered (fst (others e)) c l) as Hle.
    destruct (in_dec Nat.eq_dec c l) as [Hl|Hnl].
    + apply accepted_others, Hacc, Hl.
    + apply entries_absent in Hnl.
      assert (Hr : In c (registered (fst (others e)))) by (apply entries_present; lia).
      now destruct (others_register_accepted e c Hr).
Qed.

Lemma keeps_ret {A} (a : A) : keeps_once (ret a).
Proof. intros w Hw. exact Hw. Qed.

Lemma keeps_bind {A B} (m : M A) (k : A -> M B) :
  keeps_once m -> (forall a, keeps_once (k a)) -> keeps_once (bind m k).
Proof.
  intros Hm Hk w Hw. unfold bind. specialize (Hm w Hw).
  destruct (m w) as [[a|e| |] w1]; cbn [snd] in *; [now apply Hk | assumption..].
Qed.

Lemma keeps_try {A} (m : M A) (C : exn -> bool) (handler : M A) :
  keeps_once m -> keeps_once handler -> keeps_once (try_except m C handler).
Proof.
  intros Hm Hh w Hw. unfold try_except. specialize (Hm w Hw).
  destruct (m w) as [[a|e| |] w1]; cbn [snd] in *; try assumption.
  destruct (C e); [now apply Hh | assumption].
Qed.

Lemma keeps_for_each {A} (l : list A) (body : A -> M unit) :
  (forall x, keeps_once (body x)) -> keeps_once (for_each l body).
Proof.
  intros Hbody. induction l as [|x t IH]; cbn [for_each].
  - apply keeps_ret.
  - apply keeps_bind; [apply Hbody | intros _; exact IH].
Qed.

Lemma keeps_await {A} (prim : Env -> reply A * Env) (ev : reply A -> list event) :
  (forall x e, accepted e x = true -> accepted (snd (prim e)) x = true) ->
  keeps_once (await prim ev).
Proof.
  intros Hmono w [Hnd Hacc]. unfold await.
  destruct (prim (env w)) as [r e1] eqn:Hp.
  assert (Hacc1 : forall c, In c (active w) -> accepted e1 c = true).
  { intros c Hc. specialize (Hmono c (env w) (Hacc c Hc)). now rewrite Hp in Hmono. }
  destruct (others_keep_once (active w) e1 Hnd Hacc1) as (Hnd2 & Hacc2 & _).
  destruct (others e1) as [ops e2]. cbn [fst snd] in *. split; assumption.
Qed.

Lemma keeps_accept (c : WebSocket) : keeps_once (accept c).
Proof. apply keeps_await. intros x e. apply accepted_ws_accept. Qed.

Lemma keeps_send_text (c : WebSocket) (data : string) : keeps_once (send_text c data).
Proof. apply keeps_await. intros x e. apply accepted_ws_send_text. Qed.

Lemma keeps_receive_text (c : WebSocket) : keeps_once (receive_text c).
Proof. apply keeps_await. intros x e. apply accepted_ws_receive_text. Qed.

Lemma keeps_now_isoformat : keeps_once now_isoformat.
Proof.
  intros w [Hnd Hacc]. unfold now_isoformat.
  pose proof (fun x => accepted_utcnow x (env w)) as Hmono.
  destruct (utcnow_isoformat (env w)) as [ts e1]. cbn [snd] in *.
  split; [exact Hnd | intros c Hc; apply Hmono, Hacc, Hc].
Qed.

Lemma keeps_dumps (message : pydict) : keeps_once (dumps message).
Proof.
  intros w Hw. unfold dumps. destruct (json_dumps message); exact Hw.
Qed.

Lemma keeps_disconnect (c : WebSocket) : keeps_once (disconnect c).
Proof.
  intros w [Hnd Hacc].
  destruct (disconnect_returns c w) as (w' & Hd & Hact & Henv & _).
  rewrite Hd. cbn [snd].
  assert (Hle : forall x, entries x (active w') <= entries x (active w)).
  { intros x. rewrite Hact, apply_op_deregister_entries. destruct (Nat.eq_dec c x); lia. }
  split.
  - apply NoDup_entries. intros x.
    pose proof (proj1 (NoDup_entries _) Hnd x). specialize (Hle x). lia.
  - intros x Hx. rewrite Henv. apply Hacc, entries_present.
    apply entries_present in Hx. specialize (Hle x). lia.
Qed.

(** A handshake that completes: the socket was not accepted before, so it
    was not in the registry, and no other coroutine has registered it. *)
Lemma accept_done (c : WebSocket) (w w1 : world) :
  registered_once w -> accept c w = (Ret tt, w1) ->
  registered_once w1 /\ accepted (env w1) c = true /\
  ~ In c (active w) /\ ~ In c (active w1).
Proof.
  intros Hw Hacc. pose proof (keeps_accept c w Hw) as Hw1.
  rewrite Hacc in Hw1. cbn [snd] in Hw1.
  unfold accept, await in Hacc.
  destruct (ws_accept c (env w)) as [r e1] eqn:Ha.
  destruct (others e1) as [ops e2] eqn:Ho.
  destruct r as [[]|x|]; cbn [of_reply] in Hacc; try discriminate.
  injection Hacc as <-. cbn [active env].
  assert (He1 : accepted e1 c = true).
  { pose proof (ws_accept_done c (env w)) as Hdone. rewrite Ha in Hdone. now apply Hdone. }
  assert (Hnot : ~ In c (active w)).
  { intros Hin. destruct Hw as [_ Hall].
    pose proof (ws_accept_again c (env w) (Hall c Hin)) as Hagain.
    rewrite Ha in Hagain. discriminate. }
  split; [exact Hw1|]. split.
  - pose proof (accepted_others c e1 He1) as Hc. now rewrite Ho in Hc.
  - split; [exact Hnot|]. intros Hin. apply entries_present in Hin.
    pose proof (run_ops_entries_registered ops c (active w)) as Hle.
    apply entries_absent in Hnot.
    assert (entries c (registered ops) = 0).
    { apply entries_absent. intros Hr.
      pose proof (others_register_accepted e1 c) as Hreg. rewrite Ho in Hreg.
      destruct (Hreg Hr). congruence. }
    lia.
Qed.

(** [connect] when the handshake completes: the connection is new to the
    registry and gets its one entry. *)
Lemma connect_fresh (c : WebSocket) (w w' : world) :
  registered_once w -> connect c w = (Ret tt, w') ->
  exists w1,
    accept c w = (Ret tt, w1) /\
    ~ In c (active w) /\ ~ In c (active w1) /\
    active w' = apply_op (active w1) (OpRegister c) /\
    registered_once w'.
Proof.
  intros Hw. unfold connect, bind.
  destruct (accept c w) as [[[]|x| |] w1] eqn:Hacc; try discriminate.
  intros [= <-]. exists w1.
  destruct (accept_done c w w1 Hw Hacc) as ([Hnd Hall] & Hc & Hnot & Hnot1).
  split; [reflexivity|]. split; [exact Hnot|]. split; [exact Hnot1|].
  split; [reflexivity|]. split; cbn [active env].
  - apply NoDup_entries. intros x. unfold py_append.
    rewrite entries_app, entries_one.
    pose proof (proj1 (NoDup_entries _) Hnd x).
    destruct (Nat.eq_dec c x) as [<-|_]; [|lia].
    apply entries_absent in Hnot1. lia.
  - intros x Hx. unfold py_append in Hx. apply in_app_or in Hx as [Hx|[<-|[]]];
      [now apply Hall | exact Hc].
Qed.

Lemma keeps_connect (c : WebSocket) : keeps_once (connect c).
Proof.
  intros w Hw. pose proof (keeps_accept c w Hw) as Hw1.
  destruct (connect c w) as [r w'] eqn:Hconn. cbn [snd].
  destruct r as [[]|x| |];
    [now destruct (connect_fresh c w w' Hw Hconn) as (w1 & _ & _ & _ & _ & Hw') | ..];
    unfold connect, bind in Hconn;
    destruct (accept c w) as [[[]|y| |] w1]; cbn [snd] in Hw1; congruence.
Qed.


Lemma keeps_deliver (data : string) (c : WebSocket) : keeps_once (deliver data c).
Proof. apply keeps_try; [apply keeps_send_text | apply keeps_disconnect]. Qed.

Lemma keeps_broadcast (message : pydict) : keeps_once (broadcast message).
Proof.
  unfold broadcast. apply keeps_bind; [apply keeps_dumps|]. intros data.
  apply keeps_bind; [intros w Hw; exact Hw|]. intros snapshot.
  apply keeps_for_each. intros c. apply keeps_deliver.
Qed.

Lemma keeps_read_loop (fuel : nat) (c : WebSocket) : keeps_once (read_loop fuel c).
Proof.
  induction fuel as [|fuel IH]; cbn [read_loop]; [intros w Hw; exact Hw|].
  apply keeps_bind; [apply keeps_receive_text|]. intros text.
  apply keeps_bind; [apply keeps_now_isoformat|]. intros ts.
  apply keeps_bind; [apply keeps_broadcast|]. intros _. exact IH.
Qed.

Lemma keeps_websocket_endpoint (fuel : nat) (c : WebSocket) :
  keeps_once (websocket_endpoint fuel c).
Proof.
  unfold websocket_endpoint.
  apply keeps_bind; [apply keeps_connect|]. intros _.
  apply keeps_bind; [apply keeps_broadcast|]. intros _.
  apply keeps_try; [apply keeps_read_loop|].
  apply keeps_bind; [apply keeps_disconnect | intros _; apply keeps_broadcast].
Qed.



End Once.

(** C1.  When sends to a registered target fail, [broadcast] still returns
    normally (the failure does not reach the caller), it attempts one send
    per entry of the registry and no more (no retry), every target whose
    sends complete gets the message, and every failed send takes one entry
    of its target out of the registry before [broadcast] returns: a target
    whose sends all fail, or that is registered once and whose send fails,
    is absent from the registry at return, provided no other coroutine
    registers it during the call. *)
Theorem broadcast_failure_isolation `{P : Platform}
    (message : pydict) (data : string) (w : world) :
  json_dumps message = inr data ->
  responsive (active w) ->
  exists w' evs,
    broadcast message w = (Ret tt, w') /\
    log w' = log w ++ EvDumps message :: evs /\
    Forall2 (attempt data) (active w) evs /\
    (forall c, In c (active w) -> failing c -> quiet c ->
       In c (failed_to evs) /\ ~ In c (active w')) /\
    (forall c, In c (active w) -> healthy c -> In c (delivered_to evs)) /\
    (forall c, quiet c ->
       entries c (active w') <= entries c (active w) - entries c (failed_to evs)) /\
    (forall c, quiet c -> In c (failed_to evs) -> entries c (active w) <= 1 ->
       ~ In c (active w')).
Proof.
  intros Hjson Hresp.
  destruct (broadcast_returns message data w Hjson Hresp)
    as (w' & evs & Hb & Hlog & Hatt & Hcnt).
  exists w', evs.
  split; [exact Hb|]. split; [exact Hlog|]. split; [exact Hatt|].
  split; [|split; [|split; [exact Hcnt|]]]; cycle 2.
  - intros c Hq Hin Hone Hin'. specialize (Hcnt c Hq).
    apply (count_occ_In Nat.eq_dec) in Hin, Hin'.
    fold (entries c (failed_to evs)) in Hin. fold (entries c (active w')) in Hin'. lia.
  - intros c Hin Hfail Hq.
    pose proof (attempts_failing data c _ _ Hatt Hfail) as Heq.
    specialize (Hcnt c Hq). rewrite Heq in Hcnt.
    split.
    + apply (count_occ_In Nat.eq_dec). fold (entries c (failed_to evs)).
      rewrite Heq. now apply count_occ_In.
    + intros Hin'. apply (count_occ_In Nat.eq_dec) in Hin, Hin'.
      fold (entries c (active w)) in Hin. fold (entries c (active w')) in Hin'. lia.
  - intros c Hin Hok. eapply attempts_healthy; eauto.
Qed.

(** Scenario for C1: sockets 1, 2, 3 registered, every send to 2 raises, and
    a driver registers socket 4 during the call. *)
Section FailureScenario.
  #[local] Existing Instance DeadTwoPlatform.

Lemma broadcast_failure_isolation_witness :
  exists w' evs,
    broadcast joined_message (sim_world two_is_dead_four_joins [1; 2; 3] [] 0) = (Ret tt, w') /\
    log w' = [] ++ EvDumps joined_message :: evs /\
    Forall2 (attempt (sim_quote_dict joined_message)) [1; 2; 3] evs /\
    (In 2 (failed_to evs) /\ ~ In 2 (active w')) /\
    In 1 (delivered_to evs) /\ In 3 (delivered_to evs).
Proof.
  destruct (broadcast_failure_isolation
              joined_message (sim_quote_dict joined_message)
              (sim_world two_is_dead_four_joins [1; 2; 3] [] 0))
    as (w' & evs & Hb & Hlog & Hatt & Hfail & Hok & _ & _).
  - reflexivity.
  - intros c Hc d e. cbn in Hc |- *. unfold sim_send_text. cbn.
    destruct Hc as [<-|[<-|[<-|[]]]]; cbn; discriminate.
  - exists w', evs.
    split; [exact Hb|]. split; [exact Hlog|]. split; [exact Hatt|].
    split; [|split].
    + apply Hfail.
      * cbn. tauto.
      * intros d e. eexists. reflexivity.
      * intros e Hin. apply (sim_others_scheduled two_is_dead_four_joins) in Hin.
        cbn in Hin. destruct (turn e) as [|[|n]]; cbn in Hin; intuition discriminate.
    + apply Hok; [cbn; tauto | intros d e; reflexivity].
    + apply Hok; [cbn; tauto | intros d e; reflexivity].
Defined.

End FailureScenario.

(** C2.  A call of [broadcast] serializes the message once, before any
    send, and attempts one send of that text for each entry that the
    registry holds when the loop starts, in order, so a connection gets as
    many attempts as it has entries at that moment.  The registry of the hub
    holds each connection at most once: there, every connection of the
    snapshot gets exactly one attempt and no connection gets two, and the
    registry is still in that state when the call returns.  A connection
    that is not in the registry when the loop starts gets nothing, whatever
    the other coroutines register during the call. *)
Theorem broadcast_snapshot_delivery `{P : Platform}
    (message : pydict) (data : string) (w : world) :
  json_dumps message = inr data ->
  responsive (active w) ->
  exists w' evs,
    broadcast message w = (Ret tt, w') /\
    log w' = log w ++ EvDumps message :: evs /\
    dumped evs = [] /\
    Forall2 (attempt data) (active w) evs /\
    sent_to evs = active w /\
    (forall c, entries c (sent_to evs) = entries c (active w)) /\
    (forall c, entries c (active w) = 1 -> entries c (sent_to evs) = 1) /\
    (forall c, ~ In c (active w) -> ~ In c (sent_to evs)) /\
    (registered_once w ->
       (forall c, In c (active w) -> entries c (sent_to evs) = 1) /\
       (forall c, entries c (sent_to evs) <= 1) /\
       registered_once w').
Proof.
  intros Hjson Hresp.
  destruct (broadcast_returns message data w Hjson Hresp)
    as (w' & evs & Hb & Hlog & Hatt & _).
  destruct (sent_to_attempts data _ _ Hatt) as [Hsent Hdumped].
  exists w', evs. rewrite Hsent.
  split; [exact Hb|]. split; [exact Hlog|]. split; [exact Hdumped|].
  split; [exact Hatt|]. split; [reflexivity|]. split; [reflexivity|].
  split; [auto|]. split; [auto|].
  intros Hw. pose proof (keeps_broadcast message w Hw) as Hw'.
  rewrite Hb in Hw'. cbn [snd] in Hw'. destruct Hw as [Hnd _].
  pose proof (proj1 (NoDup_entries _) Hnd) as Hone.
  split; [|split; [exact Hone | exact Hw']].
  intros c Hin. apply entries_present in Hin. specialize (Hone c). lia.
Qed.

(** Scenario for C2: sockets 1, 2, 3 registered, socket 4 registered by its
    driver while the first send is awaited. *)
Section SnapshotScenario.
#[local] Existing Instance DeadTwoPlatform.

Lemma broadcast_snapshot_delivery_witness :
  exists w' evs,
    broadcast joined_message (sim_world two_is_dead_four_joins [1; 2; 3] [] 0) = (Ret tt, w') /\
    log w' = [] ++ EvDumps joined_message :: evs /\
    dumped evs = [] /\
    Forall2 (attempt (sim_quote_dict joined_message)) [1; 2; 3] evs /\
    sent_to evs = [1; 2; 3] /\
    (forall c, In c [1; 2; 3] -> entries c (sent_to evs) = 1) /\
    (forall c, entries c (sent_to evs) <= 1) /\
    (forall c, ~ In c [1; 2; 3] -> ~ In c (sent_to evs)) /\
    registered_once w'.
Proof.
  destruct (broadcast_snapshot_delivery
              joined_message (sim_quote_dict joined_message)
              (sim_world two_is_dead_four_joins [1; 2; 3] [] 0))
    as (w' & evs & Hb & Hlog & Hdumped & Hatt & Hsent & _ & _ & Hlate & Honce).
  - reflexivity.
  - intros c Hc d e. cbn in Hc |- *. unfold sim_send_text. cbn.
    destruct Hc as [<-|[<-|[<-|[]]]]; cbn; discriminate.
  - destruct Honce as (Hin & Hle & Hw').
    + split; cbn.
      * repeat constructor; cbn; intuition discriminate.
      * intros c [<-|[<-|[<-|[]]]]; reflexivity.
    + exists w', evs.
      split; [exact Hb|]. split; [exact Hlog|]. split; [exact Hdumped|].
      split; [exact Hatt|]. split; [exact Hsent|]. split; [exact Hin|].
      split; [exact Hle|]. split; [exact Hlate | exact Hw'].
Defined.

(** In that scenario socket 4 is in the registry when the call returns, and
    was sent nothing. *)
Example late_joiner_gets_nothing :
  let w' := snd (broadcast joined_message
                   (sim_world two_is_dead_four_joins [1; 2; 3] [] 0)) in
  active w' = [1; 3; 4] /\ sent_to (log w') = [1; 2; 3] /\ delivered_to (log w') = [1; 3].
Proof. repeat split; reflexivity. Qed.

End SnapshotScenario.

(** ** Sequences of registrations and deregistrations *)

Section Registry.



End Registry.

Section Connect.
Context `{P : Platform}.

(** [connect], when the handshake fails: the exception propagates and
    nothing is appended. *)
Lemma connect_refused (c : WebSocket) (w : world) (e : exn) (e1 : Env) :
  ws_accept c (env w) = (Fails e, e1) ->
  exists w1, connect c w = (Raise e, w1) /\
             active w1 = run_ops (fst (others e1)) (active w).
Proof.
  intros Hacc. unfold connect, bind, accept, await. rewrite Hacc.
  destruct (others e1) as [ops e2]. eexists. split; reflexivity.
Qed.

End Connect.




(** In that scenario the registry holds sockets 1 and 2 after the first
    three calls; four sockets that join and two that leave give a registry
    of the two others. *)
Example four_join_two_leave :
  active (@calls (Sim calm) [OpRegister 1; OpRegister 1; OpRegister 2]
            (sim_world calm [] [] 0)) = [1; 2] /\
  active (@calls (Sim calm)
            (map OpRegister [1; 2; 3; 4] ++ map OpDeregister [4; 2])
            (sim_world calm [] [] 0)) = [1; 3].
Proof. repeat split; reflexivity. Qed.

(** C4.  [disconnect] never raises, in any registry state and any number of
    times in a row, and each call removes exactly one entry of the
    connection if there is one and touches nothing else.  The registry of
    the hub holds a connection at most once, and there [disconnect] is
    idempotent: after the first call the connection is absent, any number of
    calls leaves the world that one call leaves, a call for a connection
    that is not registered changes nothing, and the registry still holds
    each connection at most once. *)
Theorem disconnect_idempotent `{P : Platform} (c : WebSocket) (w : world) :
  entries c (active w) <= 1 ->
  exists w',
    disconnect c w = (Ret tt, w') /\
    ~ In c (active w') /\
    (forall x, x <> c -> entries x (active w') = entries x (active w)) /\
    env w' = env w /\ log w' = log w /\
    (forall n, disconnect_times (S n) c w = (Ret tt, w')) /\
    (~ In c (active w) -> w' = w) /\
    (forall n (w0 : world), exists w0', disconnect_times n c w0 = (Ret tt, w0')) /\
    (forall w0 : world, exists w1,
       disconnect c w0 = (Ret tt, w1) /\
       entries c (active w1) = pred (entries c (active w0))) /\
    (registered_once w -> registered_once w').
Proof.
  intros Hone.
  destruct (disconnect_returns c w) as (w' & Hd & Hact & Henv & Hlog).
  assert (Habs : ~ In c (active w')).
  { intro Hin. apply (count_occ_In Nat.eq_dec) in Hin.
    fold (entries c (active w')) in Hin.
    rewrite Hact, apply_op_deregister_entries in Hin.
    destruct (Nat.eq_dec c c); [lia | congruence]. }
  exists w'.
  split; [exact Hd|]. split; [exact Habs|]. split; [|split; [exact Henv|]].
  { intros x Hx. rewrite Hact, apply_op_deregister_entries.
    destruct (Nat.eq_dec c x); [congruence | reflexivity]. }
  split; [exact Hlog|]. split; [|split; [|split; [|split]]].
  - intros n. cbn [disconnect_times]. unfold bind. rewrite Hd.
    now apply disconnect_times_absent.
  - intros Hnin. rewrite (disconnect_absent c w Hnin) in Hd. congruence.
  - induction n as [|n IH]; intros w0; cbn [disconnect_times].
    + eexists. reflexivity.
    + unfold bind. destruct (disconnect_returns c w0) as (w1 & -> & _).
      apply IH.
  - intros w0. destruct (disconnect_returns c w0) as (w1 & Hd0 & Hact0 & _).
    exists w1. split; [exact Hd0|].
    rewrite Hact0, apply_op_deregister_entries.
    destruct (Nat.eq_dec c c); [reflexivity | congruence].
  - intros Hw. pose proof (keeps_disconnect c w Hw) as Hw'. now rewrite Hd in Hw'.
Qed.

(** Scenario for C4: socket 2 leaves a registry that holds 1, 2 and 3. *)
Lemma disconnect_idempotent_witness :
  exists w',
    @disconnect (Sim calm) 2 (sim_world calm [1; 2; 3] [] 0) = (Ret tt, w') /\
    ~ In 2 (active w') /\
    (forall n, @disconnect_times (Sim calm) (S n) 2 (sim_world calm [1; 2; 3] [] 0)
               = (Ret tt, w')).
Proof.
  destruct (@disconnect_idempotent (Sim calm) 2 (sim_world calm [1; 2; 3] [] 0))
    as (w' & Hd & Habs & _ & _ & _ & Hn & _).
  - vm_compute. lia.
  - exists w'. exact (conj Hd (conj Habs Hn)).
Defined.

(** ** A message that cannot be serialized, a send that never completes *)

Section BroadcastStops.
Context `{P : Platform}.

Lemma sent_to_app (evs1 evs2 : list event) :
  sent_to (evs1 ++ evs2) = sent_to evs1 ++ sent_to evs2.
Proof.
  induction evs1 as [|[m|c d r] t IH]; cbn [sent_to app]; congruence.
Qed.

Lemma run_ops_entries_ge (ops : list hub_op) (x : WebSocket) :
  ~ In (OpDeregister x) ops ->
  forall l, entries x l <= entries x (run_ops ops l).
Proof.
  unfold run_ops.
  induction ops as [|o t IH]; cbn [fold_left]; intros Hq l; [lia|].
  assert (Ht : ~ In (OpDeregister x) t) by (intro; apply Hq; now right).
  specialize (IH Ht (apply_op l o)).
  destruct o as [c|c].
  - rewrite apply_op_register_entries in IH. lia.
  - rewrite apply_op_deregister_entries in IH.
    destruct (Nat.eq_dec c x) as [->|_]; [|lia].
    exfalso. apply Hq. now left.
Qed.

(** One iteration of the loop: apart from the other coroutines, only a
    failed send takes an entry out of the registry. *)
Lemma deliver_keeps (data : string) (c : WebSocket) (w : world) :
  fst (ws_send_text c data (env w)) <> Hangs ->
  forall w', deliver data c w = (Ret tt, w') ->
  forall x, undisturbed x ->
    entries x (active w) <=
    entries x (active w') +
    entries x (failed_to [EvSend c data (fst (ws_send_text c data (env w)))]).
Proof.
  intros Hresp w'.
  unfold deliver, try_except, send_text, await.
  destruct (ws_send_text c data (env w)) as [r e1] eqn:Hsend.
  cbn [fst] in *.
  destruct (others e1) as [ops e2] eqn:Hoth.
  assert (Hops : forall x, undisturbed x ->
            entries x (active w) <= entries x (run_ops ops (active w))).
  { intros x Hq. apply run_ops_entries_ge. specialize (Hq e1).
    now rewrite Hoth in Hq. }
  destruct r as [[]|e|]; cbn [of_reply]; [| |contradiction].
  - intros [= <-] x Hq. cbn [active failed_to]. specialize (Hops x Hq). lia.
  - match goal with |- context [disconnect c ?w1] =>
      destruct (disconnect_returns c w1) as (w2 & Hd & Hact & _)
    end.
    cbn [Exception]. rewrite Hd. intros [= <-] x Hq.
    cbn [active failed_to] in *. rewrite Hact, apply_op_deregister_entries.
    specialize (Hops x Hq). rewrite entries_one.
    destruct (Nat.eq_dec c x); lia.
Qed.

(** The loop of [broadcast] when the send to [c] never completes: the call
    stays suspended there, after one attempt for each earlier target. *)
Lemma for_each_deliver_blocks (data : string) (c : WebSocket)
    (pre post : list WebSocket) :
  responsive pre -> unresponsive c ->
  forall w, exists w' evs,
    for_each (pre ++ c :: post) (deliver data) w = (Blocked, w') /\
    log w' = log w ++ evs ++ [EvSend c data Hangs] /\
    Forall2 (attempt data) pre evs /\
    forall x, undisturbed x ->
      entries x (active w) <= entries x (active w') + entries x (failed_to evs).
Proof.
  intros Hresp Hstuck.
  induction pre as [|c0 t IH]; intros w.
  - cbn [app for_each]. unfold bind, deliver, try_except, send_text, await.
    pose proof (Hstuck data (env w)) as Hs.
    destruct (ws_send_text c data (env w)) as [r e1]. cbn [fst] in Hs. subst r.
    destruct (others e1) as [ops e2] eqn:Hoth. cbn [of_reply].
    eexists _, []. cbn [app log active].
    repeat split; [constructor|].
    intros x Hq. cbn [failed_to]. rewrite entries_nil, Nat.add_0_r.
    apply run_ops_entries_ge. specialize (Hq e1). now rewrite Hoth in Hq.
  - assert (Hc0 : fst (ws_send_text c0 data (env w)) <> Hangs)
      by (apply Hresp; now left).
    destruct (deliver_returns data c0 w Hc0) as (w1 & Hd & Hlog1 & _).
    pose proof (deliver_keeps data c0 w Hc0 w1 Hd) as Hkeep1.
    assert (Ht : responsive t) by (intros x Hx; apply Hresp; now right).
    destruct (IH Ht w1) as (w' & evs & Hloop & Hlog & Hatt & Hkeep).
    set (r := fst (ws_send_text c0 data (env w))) in *.
    exists w', (EvSend c0 data r :: evs).
    cbn [app for_each]. unfold bind. rewrite Hd.
    repeat split.
    + exact Hloop.
    + rewrite Hlog, Hlog1, <- !app_assoc. reflexivity.
    + constructor; [exists r, (env w); auto | exact Hatt].
    + intros x Hq. specialize (Hkeep1 x Hq). specialize (Hkeep x Hq).
      change (EvSend c0 data r :: evs) with ([EvSend c0 data r] ++ evs).
      rewrite failed_to_app, entries_app. lia.
Qed.

End BroadcastStops.

(** C10.  [broadcast] serializes before it sends: when [json.dumps] raises,
    the exception leaves [broadcast] at once; no send is attempted, and the
    registry and the outside world are as they were. *)
Theorem broadcast_unserializable `{P : Platform}
    (message : pydict) (e : exn) (w : world) :
  json_dumps message = inl e ->
  exists w',
    broadcast message w = (Raise e, w') /\
    active w' = active w /\
    env w' = env w /\
    log w' = log w ++ [EvDumps message] /\
    sent_to (log w') = sent_to (log w).
Proof.
  intros Hjson. unfold broadcast, bind, dumps. rewrite Hjson.
  eexists. repeat split. cbn [log]. rewrite sent_to_app. cbn. apply app_nil_r.
Qed.

(** Scenario for C10: a message that holds an object [json.dumps] cannot
    encode, three sockets registered. *)
Lemma broadcast_unserializable_witness :
  exists w',
    @broadcast (Sim calm) [("type", PyStr "chat"); ("ts", PyObject 0)]
      (sim_world calm [1; 2; 3] [] 0) = (Raise TypeError, w') /\
    active w' = [1; 2; 3] /\
    sent_to (log w') = [].
Proof.
  destruct (@broadcast_unserializable (Sim calm)
              [("type", PyStr "chat"); ("ts", PyObject 0)] TypeError
              (sim_world calm [1; 2; 3] [] 0))
    as (w' & Hb & Hact & _ & _ & Hsent).
  - reflexivity.
  - exists w'. exact (conj Hb (conj Hact Hsent)).
Defined.

Section NoTimeout.
Context `{P : Platform}.

Lemma failed_to_attempts (data : string) (l : list WebSocket) (evs : list event) :
  Forall2 (attempt data) l evs -> forall x, In x (failed_to evs) -> In x l.
Proof.
  induction 1 as [|c ev l evs (r & e & -> & _) _ IH]; intros x; [contradiction|].
  destruct r as [a|y|]; cbn [failed_to]; intros Hx.
  - right. now apply IH.
  - destruct Hx as [->|Hx]; [now left | right; now apply IH].
  - right. now apply IH.
Qed.

(** [broadcast] when the send to a registered target never completes. *)
Lemma broadcast_blocks (message : pydict) (data : string) (w : world)
    (pre post : list WebSocket) (c : WebSocket) :
  json_dumps message = inr data ->
  active w = pre ++ c :: post ->
  responsive pre -> unresponsive c ->
  exists w' evs,
    broadcast message w = (Blocked, w') /\
    log w' = log w ++ EvDumps message :: evs ++ [EvSend c data Hangs] /\
    Forall2 (attempt data) pre evs /\
    forall x, undisturbed x ->
      entries x (active w) <= entries x (active w') + entries x (failed_to evs).
Proof.
  intros Hjson Hact Hresp Hstuck.
  unfold broadcast, bind, dumps. rewrite Hjson. cbn [active]. rewrite Hact.
  match goal with |- context [for_each _ _ ?w1] =>
    destruct (for_each_deliver_blocks data c pre post Hresp Hstuck w1)
      as (w' & evs & Hloop & Hlog & Hatt & Hkeep)
  end.
  exists w', evs. rewrite Hloop. cbn [log active] in *.
  repeat split; [|exact Hatt|].
  - rewrite Hlog, <- app_assoc. reflexivity.
  - exact Hkeep.
Qed.

End NoTimeout.

(** C8, as stated, fails: [broadcast] sets no timeout on a send.  With
    sockets 1, 2, 3 registered and a send to socket 2 that never completes,
    the call never returns: socket 1 was served, the send to 2 is pending,
    no failure is recorded for 2, which stays registered, and socket 3 is
    never attempted. *)
Lemma broadcast_blocked_by_stuck_peer :
  fst (@broadcast (Sim two_is_stuck) joined_message
         (sim_world two_is_stuck [1; 2; 3] [] 0)) = Blocked /\
  sent_to (log (snd (@broadcast (Sim two_is_stuck) joined_message
                       (sim_world two_is_stuck [1; 2; 3] [] 0)))) = [1; 2] /\
  failed_to (log (snd (@broadcast (Sim two_is_stuck) joined_message
                         (sim_world two_is_stuck [1; 2; 3] [] 0)))) = [1] /\
  active (snd (@broadcast (Sim two_is_stuck) joined_message
                 (sim_world two_is_stuck [1; 2; 3] [] 0))) = [2; 3].
Proof. repeat split; reflexivity. Qed.

(** C8 (amended).  A delivery attempt lasts as long as the send itself:
    [broadcast] awaits it with no timeout of its own.  When every send to a
    registered target completes or raises, the call returns after one
    attempt per target, and a send that raises (whatever the reason) is a
    failure that costs the target a registry entry.  When the send to a
    target never completes, the call stays suspended at that send: the
    targets before it were attempted, the ones after it are not, and the
    stuck target is not deregistered by the call. *)
Theorem broadcast_sets_no_send_timeout `{P : Platform}
    (message : pydict) (data : string) (w : world) :
  json_dumps message = inr data ->
  (responsive (active w) ->
   exists w' evs,
     broadcast message w = (Ret tt, w') /\
     log w' = log w ++ EvDumps message :: evs /\
     Forall2 (attempt data) (active w) evs /\
     (forall c, quiet c ->
        entries c (active w') <= entries c (active w) - entries c (failed_to evs))) /\
  (forall pre c post,
     active w = pre ++ c :: post -> responsive pre -> unresponsive c ->
     exists w' evs,
       broadcast message w = (Blocked, w') /\
       log w' = log w ++ EvDumps message :: evs ++ [EvSend c data Hangs] /\
       Forall2 (attempt data) pre evs /\
       sent_to (evs ++ [EvSend c data Hangs]) = pre ++ [c] /\
       ~ In c (failed_to (evs ++ [EvSend c data Hangs])) /\
       (undisturbed c -> In c (active w'))).
Proof.
  intros Hjson. split.
  - intros Hresp. now apply broadcast_returns.
  - intros pre c post Hact Hresp Hstuck.
    destruct (broadcast_blocks message data w pre post c Hjson Hact Hresp Hstuck)
      as (w' & evs & Hb & Hlog & Hatt & Hkeep).
    assert (Hnf : ~ In c (failed_to evs)).
    { intros Hin. apply (failed_to_attempts data pre evs Hatt) in Hin.
      apply (Hresp c Hin data (env w)). apply Hstuck. }
    exists w', evs. split; [exact Hb|]. split; [exact Hlog|]. split; [exact Hatt|].
    split; [|split].
    + rewrite sent_to_app. cbn [sent_to].
      now rewrite (proj1 (sent_to_attempts data pre evs Hatt)).
    + rewrite failed_to_app. cbn [failed_to]. now rewrite app_nil_r.
    + intros Hq. specialize (Hkeep c Hq).
      apply (count_occ_not_In Nat.eq_dec) in Hnf. fold (entries c (failed_to evs)) in Hnf.
      assert (0 < entries c (active w)).
      { apply count_occ_In. rewrite Hact. apply in_or_app. right. now left. }
      apply (count_occ_In Nat.eq_dec). fold (entries c (active w')). lia.
Qed.

(** Scenario for C8: sockets 1, 2, 3 registered; sends to 1 raise, sends to 2
    never complete. *)
Section StuckScenario.
#[local] Existing Instance StuckTwoPlatform.

Lemma broadcast_sets_no_send_timeout_witness :
  exists w' evs,
    broadcast joined_message (sim_world two_is_stuck [1; 2; 3] [] 0) = (Blocked, w') /\
    log w' = [] ++ EvDumps joined_message :: evs
                ++ [EvSend 2 (sim_quote_dict joined_message) Hangs] /\
    Forall2 (attempt (sim_quote_dict joined_message)) [1] evs /\
    sent_to (evs ++ [EvSend 2 (sim_quote_dict joined_message) Hangs]) = [1] ++ [2] /\
    ~ In 2 (failed_to (evs ++ [EvSend 2 (sim_quote_dict joined_message) Hangs])) /\
    In 2 (active w').
Proof.
  destruct (proj2 (broadcast_sets_no_send_timeout
                     joined_message (sim_quote_dict joined_message)
                     (sim_world two_is_stuck [1; 2; 3] [] 0) eq_refl) [1] 2 [3])
    as (w' & evs & Hb & Hlog & Hatt & Hsent & Hnf & Hreg).
  - reflexivity.
  - intros c [<-|[]] d e. cbn. discriminate.
  - intros d e. reflexivity.
  - exists w', evs.
    split; [exact Hb|]. split; [exact Hlog|]. split; [exact Hatt|].
    split; [exact Hsent|]. split; [exact Hnf|].
    apply Hreg. intros e Hin. apply (sim_others_scheduled two_is_stuck) in Hin.
    cbn in Hin. destruct (turn e); exact Hin.
Defined.

End StuckScenario.

(** ** The driver *)

Section Driver.
Context `{P : Platform}.

Lemma never_hangs_responsive (l : list WebSocket) : never_hangs -> responsive l.
Proof. intros Hn c _ d e. apply Hn. Qed.

Lemma str_only_joined : str_only joined_message = true.
Proof. reflexivity. Qed.

Lemma str_only_left : str_only left_message = true.
Proof. reflexivity. Qed.

Lemma str_only_chat (text ts : string) : str_only (chat_message text ts) = true.
Proof. reflexivity. Qed.

(** A broadcast of a message made of strings, to sockets that never hang,
    returns. *)
Lemma broadcast_str_returns (message : pydict) (w : world) :
  str_only message = true -> never_hangs ->
  exists data w' evs,
    json_dumps message = inr data /\
    broadcast message w = (Ret tt, w') /\
    log w' = log w ++ EvDumps message :: evs /\
    Forall2 (attempt data) (active w) evs /\
    forall x, quiet x ->
      entries x (active w') <= entries x (active w) - entries x (failed_to evs).
Proof.
  intros Hstr Hn. destruct (json_dumps_str message Hstr) as [data Hjson].
  destruct (broadcast_returns message data w Hjson (never_hangs_responsive _ Hn))
    as (w' & evs & Hb & Hrest).
  exists data, w', evs. auto.
Qed.

(** One turn of the [while True] loop on a frame of text. *)
Lemma read_loop_frame (fuel : nat) (websocket : WebSocket) (w : world)
    (text : string) (e1 : Env) :
  ws_receive_text websocket (env w) = (Done text, e1) ->
  exists w1 ts w2,
    receive_text websocket w = (Ret text, w1) /\
    log w1 = log w /\
    env w1 = snd (others e1) /\
    now_isoformat w1 = (Ret ts, w2) /\
    ts = fst (utcnow_isoformat (env w1)) /\
    active w2 = active w1 /\ log w2 = log w1 /\
    read_loop (S fuel) websocket w =
      (broadcast (chat_message text ts) ;; read_loop fuel websocket) w2.
Proof.
  intros Hrecv. cbn [read_loop]. unfold bind at 1. unfold receive_text, await.
  rewrite Hrecv. destruct (others e1) as [ops e2]. cbn [of_reply snd].
  rewrite app_nil_r.
  unfold bind at 1. unfold now_isoformat. cbn [env active log].
  destruct (utcnow_isoformat e2) as [ts e3] eqn:Hnow.
  exists {| active := run_ops ops (active w); env := e2; log := log w |}, ts,
         {| active := run_ops ops (active w); env := e3; log := log w |}.
  cbn [env active log]. rewrite Hnow. cbn [fst]. repeat split.
Qed.

(** A result of the loop other than running out of fuel does not depend on
    the fuel left. *)
Lemma read_loop_fuel (websocket : WebSocket) (fuel : nat) :
  forall (w w1 : world) (r : res unit),
    read_loop fuel websocket w = (r, w1) -> r <> OutOfFuel ->
    forall fuel', fuel <= fuel' -> read_loop fuel' websocket w = (r, w1).
Proof.
  induction fuel as [|fuel IH]; intros w w1 r Hrun Hr fuel' Hle.
  - cbn in Hrun. injection Hrun as <- _. congruence.
  - destruct fuel' as [|fuel']; [lia|].
    cbn [read_loop] in *. unfold bind in *.
    destruct (receive_text websocket w) as [[text| | |] wa]; try exact Hrun.
    destruct (now_isoformat wa) as [[ts| | |] wb]; try exact Hrun.
    destruct (broadcast (chat_message text ts) wb) as [[[]| | |] wc]; try exact Hrun.
    apply (IH wc w1 r Hrun Hr). lia.
Qed.

(** The loop only ends by an exception, and only a read can raise it: the
    broadcast of a chat message returns. *)
Lemma read_loop_raise_is_read (websocket : WebSocket) (fuel : nat) :
  never_hangs ->
  forall (w w1 : world) (e : exn),
    read_loop fuel websocket w = (Raise e, w1) ->
    exists (wr : world) (er : Env),
      ws_receive_text websocket (env wr) = (Fails e, er).
Proof.
  intros Hn. induction fuel as [|fuel IH]; intros w w1 e Hrun.
  - discriminate.
  - destruct (ws_receive_text websocket (env w)) as [[text|x|] e1] eqn:Hrecv.
    + destruct (read_loop_frame fuel websocket w text e1 Hrecv)
        as (wa & ts & wb & _ & _ & _ & _ & _ & _ & _ & Hloop).
      destruct (broadcast_str_returns (chat_message text ts) wb (str_only_chat text ts) Hn)
        as (data & wc & evs & _ & Hb & _).
      rewrite Hloop in Hrun. unfold bind in Hrun. rewrite Hb in Hrun.
      now apply (IH wc w1 e).
    + cbn [read_loop] in Hrun. unfold bind, receive_text, await in Hrun.
      rewrite Hrecv in Hrun. destruct (others e1) as [ops e2].
      cbn [of_reply] in Hrun. injection Hrun as <- _. eauto.
    + cbn [read_loop] in Hrun. unfold bind, receive_text, await in Hrun.
      rewrite Hrecv in Hrun. destruct (others e1) as [ops e2]. discriminate.
Qed.

End Driver.

Section Endpoint.
Context `{P : Platform}.

(** The endpoint once the join phase has returned. *)
Lemma endpoint_after_join (fuel : nat) (websocket : WebSocket) (w0 w : world) :
  (connect websocket ;; broadcast joined_message) w0 = (Ret tt, w) ->
  websocket_endpoint fuel websocket w0 =
  try_except (read_loop fuel websocket) is_WebSocketDisconnect
    (disconnect websocket ;; broadcast left_message) w.
Proof.
  intros Hjoin. unfold websocket_endpoint. unfold bind in Hjoin |- *.
  destruct (connect websocket w0) as [[[]| | |] wa]; try discriminate.
  destruct (broadcast joined_message wa) as [[[]| | |] wb]; try discriminate.
  injection Hjoin as <-. reflexivity.
Qed.

(** [connect] when the handshake completes. *)
Lemma connect_returns (websocket : WebSocket) (w : world) (e1 : Env) :
  ws_accept websocket (env w) = (Done tt, e1) ->
  exists w1,
    connect websocket w = (Ret tt, w1) /\
    active w1 = run_ops (fst (others e1)) (active w) ++ [websocket] /\
    log w1 = log w.
Proof.
  intros Hacc. unfold connect, bind, accept, await. rewrite Hacc.
  destruct (others e1) as [ops e2]. cbn [of_reply fst].
  eexists. split; [reflexivity|]. cbn [active log]. rewrite app_nil_r. auto.
Qed.

End Endpoint.

(** C7.  For a frame of text that [receive_text] returns, the loop reads the
    clock, then makes exactly one call of [broadcast], with the dict
    [{"type": "chat", "text": text, "ts": ts}] where [text] is the frame as
    received and [ts] the reading of [datetime.now(timezone.utc).isoformat()]
    taken right after the receipt, an ISO-8601 instant in UTC; the call
    serializes that dict once, sends it to each entry of the registry, and
    the loop goes on to the next read. *)
Theorem chat_rebroadcast `{P : Platform}
    (fuel : nat) (websocket : WebSocket) (w : world) (text : string) (e1 : Env) :
  ws_receive_text websocket (env w) = (Done text, e1) ->
  never_hangs ->
  exists w1 ts w2 data w3 evs,
    receive_text websocket w = (Ret text, w1) /\
    now_isoformat w1 = (Ret ts, w2) /\
    ts = fst (utcnow_isoformat (env w1)) /\
    iso8601_utc ts = true /\
    chat_message text ts = [("type", PyStr "chat"); ("text", PyStr text); ("ts", PyStr ts)] /\
    json_dumps (chat_message text ts) = inr data /\
    broadcast (chat_message text ts) w2 = (Ret tt, w3) /\
    log w3 = log w ++ EvDumps (chat_message text ts) :: evs /\
    dumped (EvDumps (chat_message text ts) :: evs) = [chat_message text ts] /\
    Forall2 (attempt data) (active w2) evs /\
    read_loop (S fuel) websocket w = read_loop fuel websocket w3.
Proof.
  intros Hrecv Hn.
  destruct (read_loop_frame fuel websocket w text e1 Hrecv)
    as (w1 & ts & w2 & Hr & Hlog1 & _ & Hnow & Hts & Hact2 & Hlog2 & Hloop).
  destruct (broadcast_str_returns (chat_message text ts) w2 (str_only_chat text ts) Hn)
    as (data & w3 & evs & Hjson & Hb & Hlog3 & Hatt & _).
  exists w1, ts, w2, data, w3, evs.
  repeat split; try assumption.
  - rewrite Hts. apply utcnow_iso8601.
  - now rewrite Hlog3, Hlog2, Hlog1.
  - cbn [dumped]. now rewrite (proj2 (sent_to_attempts data _ _ Hatt)).
  - rewrite Hloop. unfold bind. now rewrite Hb.
Qed.

(** Scenario for C7: sockets 1 and 2 registered, socket 2 sends a frame. *)
Section ChatScenario.
#[local] Existing Instance CalmPlatform.

Lemma chat_rebroadcast_witness :
  exists w3 evs,
    log w3 = [] ++ EvDumps (chat_message "{not json" "2024-05-01T10:00:00+00:00")
                   :: evs /\
    sent_to evs = [1; 2] /\
    read_loop 3 2 (sim_world calm [1; 2] [Done "{not json"] 0)
    = read_loop 2 2 w3.
Proof.
  destruct (chat_rebroadcast 2 2
              (sim_world calm [1; 2] [Done "{not json"] 0)
              "{not json" (mkSim [] 0 0 [1; 2]))
    as (w1 & ts & w2 & data & w3 & evs & Hr & Hnow & Hts & _ & _ & _ & _ & Hlog & _ & Hatt & Hloop).
  - reflexivity.
  - intros c d e. cbn. discriminate.
  - exists w3, evs. cbn in Hts. subst ts.
    injection Hr as <-. injection Hnow as <-.
    split; [exact Hlog|]. split; [|exact Hloop].
    exact (proj1 (sent_to_attempts data _ _ Hatt)).
Defined.

End ChatScenario.

(** C6.  On a connection whose handshake completes, the endpoint first
    appends the connection to the registry, then makes one call of
    [broadcast], with the dict [{"type": "system", "message": "Player
    joined"}]: that call sends the text to every entry of the registry as it
    is right after the append, the new connection included, and nothing else
    is broadcast before the read loop starts. *)
Theorem join_notice `{P : Platform}
    (fuel : nat) (websocket : WebSocket) (w : world) (e1 : Env) :
  ws_accept websocket (env w) = (Done tt, e1) ->
  never_hangs ->
  exists w1 data w2 evs,
    connect websocket w = (Ret tt, w1) /\
    active w1 = run_ops (fst (others e1)) (active w) ++ [websocket] /\
    log w1 = log w /\
    joined_message = [("type", PyStr "system"); ("message", PyStr "Player joined")] /\
    json_dumps joined_message = inr data /\
    broadcast joined_message w1 = (Ret tt, w2) /\
    log w2 = log w ++ EvDumps joined_message :: evs /\
    dumped (EvDumps joined_message :: evs) = [joined_message] /\
    Forall2 (attempt data) (active w1) evs /\
    sent_to evs = active w1 /\
    In websocket (sent_to evs) /\
    websocket_endpoint fuel websocket w =
      try_except (read_loop fuel websocket) is_WebSocketDisconnect
        (disconnect websocket ;; broadcast left_message) w2.
Proof.
  intros Hacc Hn.
  destruct (connect_returns websocket w e1 Hacc) as (w1 & Hc & Hact & Hlog1).
  destruct (broadcast_str_returns joined_message w1 str_only_joined Hn)
    as (data & w2 & evs & Hjson & Hb & Hlog2 & Hatt & _).
  destruct (sent_to_attempts data _ _ Hatt) as [Hsent Hdumped].
  exists w1, data, w2, evs.
  repeat split; try assumption.
  - now rewrite Hlog2, Hlog1.
  - cbn [dumped]. now rewrite Hdumped.
  - rewrite Hsent, Hact. apply in_or_app. right. now left.
  - apply endpoint_after_join. unfold bind. now rewrite Hc.
Qed.

(** Scenario for C6: socket 7 joins a registry that holds 1 and 2. *)
Section JoinScenario.
#[local] Existing Instance CalmPlatform.

Lemma join_notice_witness :
  exists w2 evs,
    log w2 = [] ++ EvDumps joined_message :: evs /\
    sent_to evs = [1; 2; 7] /\
    websocket_endpoint 4 7 (sim_world calm [1; 2] [] 0) =
      try_except (read_loop 4 7) is_WebSocketDisconnect
        (disconnect 7 ;; broadcast left_message) w2.
Proof.
  destruct (join_notice 4 7 (sim_world calm [1; 2] [] 0) (mkSim [] 0 0 [7; 1; 2]))
    as (w1 & data & w2 & evs & Hc & _ & _ & _ & _ & _ & Hlog & _ & _ & Hsent & _ & Hep).
  - reflexivity.
  - intros c d e. cbn. discriminate.
  - exists w2, evs. injection Hc as <-.
    exact (conj Hlog (conj Hsent Hep)).
Defined.

End JoinScenario.

(** C5, as stated, fails for a read that raises anything but
    [WebSocketDisconnect]: with a read that raises [KeyError] (a frame that
    holds no text), the exception leaves the endpoint, socket 7 stays in the
    registry and no [Player left] message is broadcast. *)
Lemma read_error_skips_deregistration :
  fst (@websocket_endpoint (Sim calm) 5 7
         (sim_world calm [1; 2] [Fails KeyError] 0)) = Raise KeyError /\
  active (snd (@websocket_endpoint (Sim calm) 5 7
                 (sim_world calm [1; 2] [Fails KeyError] 0))) = [1; 2; 7] /\
  dumped (log (snd (@websocket_endpoint (Sim calm) 5 7
                      (sim_world calm [1; 2] [Fails KeyError] 0))))
  = [joined_message].
Proof. repeat split; reflexivity. Qed.

(** C5 (amended).  When the read loop ends with [WebSocketDisconnect] (how
    the framework reports a close or a lost peer), the endpoint deregisters
    the connection, then makes one call of [broadcast] with the dict
    [{"type": "system", "message": "Player left"}], which goes to the
    entries of the registry after the deregistration, and returns.  When the
    loop ends with any other exception, that exception leaves the endpoint
    with the registry as it was.  In both cases only this coroutine ends, and
    the outcome does not depend on the fuel left. *)
Theorem driver_disconnect `{P : Platform}
    (fuel : nat) (websocket : WebSocket) (w0 w w1 : world) (e : exn) :
  (connect websocket ;; broadcast joined_message) w0 = (Ret tt, w) ->
  read_loop fuel websocket w = (Raise e, w1) ->
  never_hangs ->
  (exists (wr : world) (er : Env), ws_receive_text websocket (env wr) = (Fails e, er)) /\
  (forall fuel', fuel <= fuel' -> read_loop fuel' websocket w = (Raise e, w1)) /\
  (is_WebSocketDisconnect e = true ->
   exists w2 data w3 evs,
     disconnect websocket w1 = (Ret tt, w2) /\
     active w2 = apply_op (active w1) (OpDeregister websocket) /\
     left_message = [("type", PyStr "system"); ("message", PyStr "Player left")] /\
     json_dumps left_message = inr data /\
     broadcast left_message w2 = (Ret tt, w3) /\
     log w3 = log w1 ++ EvDumps left_message :: evs /\
     dumped (EvDumps left_message :: evs) = [left_message] /\
     Forall2 (attempt data) (active w2) evs /\
     (entries websocket (active w1) <= 1 -> ~ In websocket (sent_to evs)) /\
     (entries websocket (active w1) <= 1 -> quiet websocket ->
        ~ In websocket (active w3)) /\
     (forall fuel', fuel <= fuel' -> websocket_endpoint fuel' websocket w0 = (Ret tt, w3))) /\
  (is_WebSocketDisconnect e = false ->
   forall fuel', fuel <= fuel' -> websocket_endpoint fuel' websocket w0 = (Raise e, w1)).
Proof.
  intros Hjoin Hloop Hn.
  assert (Hfuel : forall fuel', fuel <= fuel' ->
            read_loop fuel' websocket w = (Raise e, w1)).
  { intros fuel' Hle. apply (read_loop_fuel websocket fuel w w1 _ Hloop); [discriminate|exact Hle]. }
  split; [exact (read_loop_raise_is_read websocket fuel Hn w w1 e Hloop)|].
  split; [exact Hfuel|]. split.
  - intros Hwsd.
    destruct (disconnect_returns websocket w1) as (w2 & Hd & Hact & _ & Hlog2).
    destruct (broadcast_str_returns left_message w2 str_only_left Hn)
      as (data & w3 & evs & Hjson & Hb & Hlog3 & Hatt & Hcnt).
    destruct (sent_to_attempts data _ _ Hatt) as [Hsent Hdumped].
    assert (Hgone : entries websocket (active w1) <= 1 -> entries websocket (active w2) = 0).
    { intros Hone. rewrite Hact, apply_op_deregister_entries.
      destruct (Nat.eq_dec websocket websocket); [lia | congruence]. }
    exists w2, data, w3, evs.
    repeat split; try assumption.
    + now rewrite Hlog3, Hlog2.
    + cbn [dumped]. now rewrite Hdumped.
    + intros Hone. rewrite Hsent. apply (count_occ_not_In Nat.eq_dec). now apply Hgone.
    + intros Hone Hq. apply (count_occ_not_In Nat.eq_dec).
      fold (entries websocket (active w3)).
      specialize (Hcnt websocket Hq). rewrite (Hgone Hone) in Hcnt. lia.
    + intros fuel' Hle. rewrite (endpoint_after_join fuel' websocket w0 w Hjoin).
      unfold try_except. rewrite (Hfuel fuel' Hle), Hwsd.
      unfold bind. now rewrite Hd.
  - intros Hwsd fuel' Hle. rewrite (endpoint_after_join fuel' websocket w0 w Hjoin).
    unfold try_except. now rewrite (Hfuel fuel' Hle), Hwsd.
Qed.

(** Scenario for C5: socket 7 joins a registry that holds 1 and 2, sends one
    frame and closes. *)
Section LeaveScenario.
#[local] Existing Instance CalmPlatform.

Lemma driver_disconnect_witness :
  exists w3 evs,
    dumped (EvDumps left_message :: evs) = [left_message] /\
    ~ In 7 (sent_to evs) /\
    forall fuel', 5 <= fuel' ->
      websocket_endpoint fuel' 7
        (sim_world calm [1; 2] [Done "hi"; Fails (WebSocketDisconnect 1000)] 0)
      = (Ret tt, w3).
Proof.
  destruct (driver_disconnect 5 7
              (sim_world calm [1; 2] [Done "hi"; Fails (WebSocketDisconnect 1000)] 0)
              (snd ((connect 7 ;; broadcast joined_message)
                      (sim_world calm [1; 2] [Done "hi"; Fails (WebSocketDisconnect 1000)] 0)))
              (snd (read_loop 5 7
                      (snd ((connect 7 ;; broadcast joined_message)
                              (sim_world calm [1; 2] [Done "hi"; Fails (WebSocketDisconnect 1000)] 0)))))
              (WebSocketDisconnect 1000))
    as (_ & _ & Hleft & _).
  - vm_compute. reflexivity.
  - vm_compute. reflexivity.
  - intros c d e. cbn. discriminate.
  - destruct (Hleft eq_refl)
      as (w2 & data & w3 & evs & _ & _ & _ & _ & _ & _ & Hdumped & _ & Hnot & _ & Hep).
    exists w3, evs. split; [exact Hdumped|]. split; [|exact Hep].
    apply Hnot. vm_compute. lia.
Defined.

End LeaveScenario.


(** * More on the hub *)

Section RegistryOrder.

Lemma without_absent (c : WebSocket) (l : list WebSocket) :
  entries c l = 0 -> without c l = l.
Proof.
  unfold without. induction l as [|y t IH]; intros Hc; [reflexivity|].
  change (y :: t) with ([y] ++ t) in Hc. rewrite entries_app, entries_one in Hc.
  cbn [filter]. destruct (Nat.eqb_spec y c) as [->|Hne].
  - destruct (Nat.eq_dec c c); [lia | congruence].
  - cbn [negb]. rewrite IH; [reflexivity | lia].
Qed.

(** [remove] leaves the other connections where they are. *)
Lemma py_remove_without (c : WebSocket) (l l' : list WebSocket) :
  py_remove c l = Some l' ->
  without c l' = without c l /\ (entries c l <= 1 -> l' = without c l).
Proof.
  revert l'. induction l as [|y t IH]; intros l' Hrm; [discriminate|].
  cbn [py_remove] in Hrm. unfold without in *. cbn [filter].
  destruct (Nat.eqb_spec c y) as [<-|Hne].
  - injection Hrm as <-. rewrite Nat.eqb_refl. cbn [negb]. split; [reflexivity|].
    intros Hone. change (c :: t) with ([c] ++ t) in Hone.
    rewrite entries_app, entries_one in Hone.
    destruct (Nat.eq_dec c c); [|congruence].
    symmetry. apply without_absent. lia.
  - destruct (py_remove c t) as [t'|] eqn:Ht; [|discriminate].
    injection Hrm as <-. destruct (IH t' eq_refl) as [IH1 IH2].
    cbn [filter]. destruct (Nat.eqb_spec y c) as [->|_]; [congruence|]. cbn [negb].
    split; [now rewrite IH1|].
    intros Hone. change (y :: t) with ([y] ++ t) in Hone.
    rewrite entries_app, entries_one in Hone.
    rewrite <- IH2; [reflexivity|]. destruct (Nat.eq_dec y c); lia.
Qed.

Lemma apply_op_deregister_without (c : WebSocket) (l : list WebSocket) :
  without c (apply_op l (OpDeregister c)) = without c l /\
  (entries c l <= 1 -> apply_op l (OpDeregister c) = without c l).
Proof.
  cbn [apply_op]. destruct (py_in c l) eqn:Hin.
  - destruct (py_remove_present _ _ Hin) as [l' Hl']. rewrite Hl'.
    now apply py_remove_without.
  - split; [reflexivity|]. intros _. symmetry. apply without_absent.
    now apply py_in_entries.
Qed.


Lemma survivors_nil (l : list WebSocket) : survivors [] l = l.
Proof.
  unfold survivors. induction l as [|y t IH]; [reflexivity|].
  cbn in *. now rewrite IH.
Qed.

Lemma survivors_cons (c : WebSocket) (gone l : list WebSocket) :
  survivors gone (without c l) = survivors (c :: gone) l.
Proof.
  unfold survivors, without. induction l as [|y t IH]; [reflexivity|].
  cbn [filter py_in]. destruct (Nat.eqb_spec y c) as [->|Hne]; cbn [negb].
  - exact IH.
  - cbn [filter]. rewrite IH. reflexivity.
Qed.

Lemma without_NoDup (c : WebSocket) (l : list WebSocket) :
  NoDup l -> NoDup (without c l).
Proof. intros Hl. unfold without. now apply NoDup_filter. Qed.

End RegistryOrder.

Section HubTraces.
Context `{P : Platform}.

Lemma dumped_app (evs1 evs2 : list event) :
  dumped (evs1 ++ evs2) = dumped evs1 ++ dumped evs2.
Proof.
  induction evs1 as [|[m|c d r] t IH]; cbn [dumped app]; congruence.
Qed.

(** Whatever the send does, one iteration of the loop of [broadcast] never
    raises, and it adds sends only to the trace. *)
Lemma deliver_outcome (data : string) (c : WebSocket) (w w' : world) (r : res unit) :
  deliver data c w = (r, w') ->
  (r = Ret tt \/ r = Blocked) /\
  exists evs, log w' = log w ++ evs /\ dumped evs = [].
Proof.
  unfold deliver, try_except, send_text, await.
  destruct (ws_send_text c data (env w)) as [[[]|e|] e1].
  - destruct (others e1) as [ops e2]. cbn [of_reply]. intros [= <- <-].
    split; [now left|]. eexists. cbn [log]. split; reflexivity.
  - destruct (others e1) as [ops e2]. cbn [of_reply Exception].
    match goal with |- context [disconnect c ?w1] =>
      destruct (disconnect_returns c w1) as (w2 & Hd & _ & _ & Hlog)
    end.
    rewrite Hd. intros [= <- <-]. split; [now left|].
    eexists. rewrite Hlog. cbn [log]. split; reflexivity.
  - destruct (others e1) as [ops e2]. cbn [of_reply]. intros [= <- <-].
    split; [now right|]. eexists. cbn [log]. split; reflexivity.
Qed.

Lemma for_each_deliver_outcome (data : string) (snapshot : list WebSocket) :
  forall (w w' : world) (r : res unit),
    for_each snapshot (deliver data) w = (r, w') ->
    (r = Ret tt \/ r = Blocked) /\
    exists evs, log w' = log w ++ evs /\ dumped evs = [].
Proof.
  induction snapshot as [|c t IH]; intros w w' r; cbn [for_each].
  - intros [= <- <-]. split; [now left|]. exists []. now rewrite app_nil_r.
  - unfold bind. destruct (deliver data c w) as [r1 w1] eqn:Hd.
    destruct (deliver_outcome data c w w1 r1 Hd) as ([-> | ->] & evs1 & Hlog1 & Hd1).
    + intros Hrest. destruct (IH w1 w' r Hrest) as (Hr & evs & Hlog & Hdu).
      split; [exact Hr|]. exists (evs1 ++ evs).
      rewrite Hlog, Hlog1, <- app_assoc, dumped_app, Hd1, Hdu. auto.
    + intros [= <- <-]. split; [now right|]. exists evs1. auto.
Qed.

(** [broadcast] of a message made of strings never raises; any call leaves
    one serialization and then only sends in the trace. *)
Lemma broadcast_outcome (message : pydict) (w w' : world) (r : res unit) :
  broadcast message w = (r, w') ->
  (str_only message = true -> r = Ret tt \/ r = Blocked) /\
  exists evs, log w' = log w ++ EvDumps message :: evs /\ dumped evs = [].
Proof.
  unfold broadcast, bind, dumps.
  destruct (json_dumps message) as [e|data] eqn:Hjson.
  - intros [= <- <-]. split.
    + intros Hstr. destruct (json_dumps_str message Hstr) as [d Hd]. congruence.
    + exists []. cbn [log]. auto.
  - cbn [active]. intros Hloop.
    destruct (for_each_deliver_outcome data _ _ _ _ Hloop) as (Hr & evs & Hlog & Hdu).
    split; [intros _; exact Hr|]. exists evs. cbn [log] in Hlog.
    rewrite Hlog, <- app_assoc. auto.
Qed.

Lemma connect_log (c : WebSocket) (w w' : world) (r : res unit) :
  connect c w = (r, w') -> log w' = log w.
Proof.
  unfold connect, bind, accept, await.
  destruct (ws_accept c (env w)) as [[[]|e|] e1]; destruct (others e1) as [ops e2];
    cbn [of_reply]; intros [= <- <-]; cbn [log]; now rewrite app_nil_r.
Qed.

(** The [while True] loop never returns, a read is the only thing in it that
    can raise, and it broadcasts chat messages only. *)
Lemma read_loop_outcome (websocket : WebSocket) (fuel : nat) :
  forall (w w1 : world) (r : res unit),
    read_loop fuel websocket w = (r, w1) ->
    r <> Ret tt /\
    (forall e, r = Raise e ->
       exists (wr : world) (er : Env), ws_receive_text websocket (env wr) = (Fails e, er)) /\
    exists evs, log w1 = log w ++ evs /\ Forall is_chat (dumped evs).
Proof.
  induction fuel as [|fuel IH]; intros w w1 r; cbn [read_loop].
  - intros [= <- <-]. split; [discriminate|]. split; [discriminate|].
    exists []. rewrite app_nil_r. split; [reflexivity | constructor].
  - unfold bind at 1. unfold receive_text, await.
    destruct (ws_receive_text websocket (env w)) as [[text|e|] e1] eqn:Hrecv;
      destruct (others e1) as [ops e2]; cbn [of_reply].
    + unfold bind at 1. unfold now_isoformat. cbn [env active log].
      destruct (utcnow_isoformat e2) as [ts e3]. rewrite app_nil_r.
      unfold bind at 1.
      match goal with |- context [broadcast ?m ?wb] =>
        destruct (broadcast m wb) as [rb wc] eqn:Hb
      end.
      destruct (broadcast_outcome _ _ _ _ Hb) as (Hrb & evs1 & Hlog1 & Hd1).
      cbn [log] in Hlog1.
      assert (Hchat : Forall is_chat (dumped (EvDumps (chat_message text ts) :: evs1))).
      { cbn [dumped]. rewrite Hd1. constructor; [|constructor]. now exists text, ts. }
      destruct (Hrb (str_only_chat text ts)) as [-> | ->].
      * intros Hrest. destruct (IH wc w1 r Hrest) as (Hnr & Hraise & evs & Hlog & Hch).
        split; [exact Hnr|]. split; [exact Hraise|].
        exists ((EvDumps (chat_message text ts) :: evs1) ++ evs).
        rewrite Hlog, Hlog1, <- app_assoc, dumped_app. split; [reflexivity|].
        apply Forall_app. auto.
      * intros [= <- <-]. split; [discriminate|]. split; [discriminate|].
        exists (EvDumps (chat_message text ts) :: evs1). auto.
    + intros [= <- <-]. split; [discriminate|]. split.
      * intros e' [= <-]. eauto.
      * exists []. cbn [log]. rewrite !app_nil_r. split; [reflexivity | constructor].
    + intros [= <- <-]. split; [discriminate|]. split; [discriminate|].
      exists []. cbn [log]. rewrite !app_nil_r. split; [reflexivity | constructor].
Qed.


End HubTraces.

Section HubRegistry.
Context `{P : Platform}.

(** One iteration of the loop of [broadcast] when no other coroutine
    touches the registry. *)
Lemma deliver_silent (data : string) (c : WebSocket) (w : world) :
  silent ->
  fst (ws_send_text c data (env w)) <> Hangs ->
  exists w',
    deliver data c w = (Ret tt, w') /\
    log w' = log w ++ [EvSend c data (fst (ws_send_text c data (env w)))] /\
    active w' = match fst (ws_send_text c data (env w)) with
                | Fails _ => apply_op (active w) (OpDeregister c)
                | _ => active w
                end.
Proof.
  intros Hsil Hresp. unfold deliver, try_except, send_text, await.
  pose proof (Hsil (snd (ws_send_text c data (env w)))) as Hops.
  destruct (ws_send_text c data (env w)) as [r e1]. cbn [fst snd] in *.
  destruct (others e1) as [ops e2]. cbn [fst] in Hops. subst ops.
  destruct r as [[]|e|]; cbn [of_reply]; [| |contradiction].
  - eexists. repeat split.
  - match goal with |- context [disconnect c ?w1] =>
      destruct (disconnect_returns c w1) as (w' & Hd & Hact & _ & Hlog)
    end.
    cbn [Exception]. rewrite Hd. exists w'. cbn [active log run_ops fold_left] in *. auto.
Qed.

Lemma for_each_deliver_silent (data : string) (snapshot : list WebSocket) :
  silent -> responsive snapshot ->
  forall w, NoDup (active w) ->
  exists w' evs,
    for_each snapshot (deliver data) w = (Ret tt, w') /\
    log w' = log w ++ evs /\
    Forall2 (attempt data) snapshot evs /\
    active w' = survivors (failed_to evs) (active w).
Proof.
  intros Hsil. induction snapshot as [|c t IH]; intros Hresp w Hnd.
  - exists w, []. cbn [for_each failed_to]. rewrite app_nil_r, survivors_nil.
    repeat split. constructor.
  - assert (Hc : fst (ws_send_text c data (env w)) <> Hangs) by (apply Hresp; now left).
    destruct (deliver_silent data c w Hsil Hc) as (w1 & Hd & Hlog1 & Hact1).
    assert (Ht : responsive t) by (intros x Hx; apply Hresp; now right).
    set (r := fst (ws_send_text c data (env w))) in *.
    assert (Hnd1 : NoDup (active w1)).
    { rewrite Hact1. destruct r; try exact Hnd.
      rewrite (proj2 (apply_op_deregister_without c (active w)));
        [now apply without_NoDup | now apply NoDup_entries]. }
    destruct (IH Ht w1 Hnd1) as (w' & evs & Hloop & Hlog & Hatt & Hact).
    exists w', (EvSend c data r :: evs). cbn [for_each]. unfold bind. rewrite Hd.
    split; [exact Hloop|]. split; [now rewrite Hlog, Hlog1, <- app_assoc|].
    split; [constructor; [exists r, (env w); auto | exact Hatt]|].
    rewrite Hact, Hact1. destruct r as [a|e|] eqn:Hr; cbn [failed_to]; try reflexivity.
    rewrite (proj2 (apply_op_deregister_without c (active w)));
      [apply survivors_cons | now apply NoDup_entries].
Qed.

Lemma attempts_all_healthy (data : string) (l : list WebSocket) (evs : list event) :
  Forall2 (attempt data) l evs ->
  (forall c, In c l -> healthy c) ->
  failed_to evs = [] /\ delivered_to evs = l.
Proof.
  induction 1 as [|c ev l evs (r & e & -> & Hr & _) _ IH]; intros Hok; [auto|].
  rewrite (Hok c (or_introl eq_refl) data e) in Hr. subst r.
  destruct IH as [IH1 IH2]; [intros x Hx; apply Hok; now right|].
  cbn [failed_to delivered_to]. now rewrite IH1, IH2.
Qed.

End HubRegistry.

(** X1.  [disconnect] only takes away an entry of the connection it is
    given: the other connections keep their entries and their order, and
    when the connection has at most one entry the registry afterwards is
    the old one without it. *)
Theorem disconnect_keeps_order `{P : Platform} (c : WebSocket) (w : world) :
  exists w',
    disconnect c w = (Ret tt, w') /\
    without c (active w') = without c (active w) /\
    (entries c (active w) <= 1 -> active w' = without c (active w)).
Proof.
  destruct (disconnect_returns c w) as (w' & Hd & Hact & _).
  exists w'. rewrite Hact. split; [exact Hd|].
  apply apply_op_deregister_without.
Qed.

Lemma disconnect_keeps_order_witness :
  exists w',
    @disconnect (Sim calm) 2 (sim_world calm [3; 2; 1; 4] [] 0) = (Ret tt, w') /\
    active w' = [3; 1; 4].
Proof.
  destruct (@disconnect_keeps_order (Sim calm) 2 (sim_world calm [3; 2; 1; 4] [] 0))
    as (w' & Hd & _ & Hact).
  exists w'. split; [exact Hd|]. apply Hact. vm_compute. lia.
Defined.



(** X3.  When the handshake of a new connection fails, the exception leaves
    the endpoint: the connection is not appended to the registry and nothing
    is broadcast. *)
Theorem endpoint_handshake_refused `{P : Platform}
    (fuel : nat) (websocket : WebSocket) (w : world) (e : exn) (e1 : Env) :
  ws_accept websocket (env w) = (Fails e, e1) ->
  exists w',
    websocket_endpoint fuel websocket w = (Raise e, w') /\
    active w' = run_ops (fst (others e1)) (active w) /\
    log w' = log w /\
    (fst (others e1) = [] -> active w' = active w).
Proof.
  intros Hacc. destruct (connect_refused websocket w e e1 Hacc) as (w1 & Hc & Hact).
  exists w1. unfold websocket_endpoint. unfold bind at 1. rewrite Hc.
  split; [reflexivity|]. split; [exact Hact|]. split.
  - exact (connect_log websocket w w1 _ Hc).
  - intros Hsil. now rewrite Hact, Hsil.
Qed.

Lemma endpoint_handshake_refused_witness :
  exists w',
    @websocket_endpoint (Sim seven_is_refused) 5 7
      (sim_world seven_is_refused [1; 2] [Done "hi"] 0) = (Raise RuntimeError, w') /\
    active w' = [1; 2] /\
    log w' = [].
Proof.
  destruct (@endpoint_handshake_refused (Sim seven_is_refused) 5 7
              (sim_world seven_is_refused [1; 2] [Done "hi"] 0) RuntimeError
              (mkSim [Done "hi"] 0 0 [1; 2]))
    as (w' & Hrun & _ & Hlog & Hact).
  - reflexivity.
  - exists w'. split; [exact Hrun|]. split; [|exact Hlog]. now apply Hact.
Defined.

(** X4.  A [broadcast] over a registry without duplicates, with no other
    coroutine touching the registry: at return the registry is the old one
    without the targets whose send raised, in the same order; when every
    target is healthy the registry is unchanged and every target got the
    message. *)
Theorem broadcast_registry_after `{P : Platform}
    (message : pydict) (data : string) (w : world) :
  json_dumps message = inr data ->
  responsive (active w) ->
  silent ->
  NoDup (active w) ->
  exists w' evs,
    broadcast message w = (Ret tt, w') /\
    log w' = log w ++ EvDumps message :: evs /\
    active w' = survivors (failed_to evs) (active w) /\
    ((forall c, In c (active w) -> healthy c) ->
       active w' = active w /\ delivered_to evs = active w).
Proof.
  intros Hjson Hresp Hsil Hnd.
  unfold broadcast, bind, dumps. rewrite Hjson. cbn [active].
  match goal with |- context [for_each _ _ ?w1] =>
    destruct (for_each_deliver_silent data (active w) Hsil Hresp w1 Hnd)
      as (w' & evs & Hloop & Hlog & Hatt & Hact)
  end.
  exists w', evs. rewrite Hloop. cbn [log active] in *.
  split; [reflexivity|]. split; [now rewrite Hlog, <- app_assoc|].
  split; [exact Hact|].
  intros Hok. destruct (attempts_all_healthy data _ _ Hatt Hok) as [Hf Hd].
  now rewrite Hact, Hf, survivors_nil.
Qed.

Section DeadTwoScenario.
#[local] Existing Instance DeadTwoQuietPlatform.

Lemma broadcast_registry_after_witness :
  exists w' evs,
    broadcast joined_message (sim_world two_is_dead [3; 2; 1] [] 0) = (Ret tt, w') /\
    active w' = survivors (failed_to evs) [3; 2; 1] /\
    active w' = [3; 1].
Proof.
  destruct (broadcast_registry_after joined_message (sim_quote_dict joined_message)
              (sim_world two_is_dead [3; 2; 1] [] 0))
    as (w' & evs & Hb & _ & Hact & _).
  - reflexivity.
  - intros c Hc d e. cbn in Hc |- *. unfold sim_send_text. cbn.
    destruct Hc as [<-|[<-|[<-|[]]]]; cbn; discriminate.
  - intros e. cbn. unfold sim_others. cbn. destruct (turn e); reflexivity.
  - repeat constructor; cbn; intuition discriminate.
  - exists w', evs. split; [exact Hb|]. split; [exact Hact|].
    injection Hb as <-. reflexivity.
Defined.

End DeadTwoScenario.


(** X6.  What one run of the endpoint broadcasts, whatever its outcome:
    nothing, or one join notice followed by chat messages only, followed,
    when the run got that far, by one leave notice; a run that returns
    normally broadcast the join notice first and the leave notice last. *)
Theorem endpoint_broadcast_sequence `{P : Platform}
    (fuel : nat) (websocket : WebSocket) (w0 w' : world) (r : res unit) :
  websocket_endpoint fuel websocket w0 = (r, w') ->
  exists evs chats,
    log w' = log w0 ++ evs /\
    Forall is_chat chats /\
    (dumped evs = [] \/
     dumped evs = joined_message :: chats \/
     dumped evs = joined_message :: chats ++ [left_message]) /\
    (r = Ret tt -> dumped evs = joined_message :: chats ++ [left_message]).
Proof.
  unfold websocket_endpoint. unfold bind at 1.
  destruct (connect websocket w0) as [rc wa] eqn:Hc.
  pose proof (connect_log websocket w0 wa rc Hc) as Hloga.
  assert (Hstop : forall r0, r0 <> Ret tt -> (r0, wa) = (r, w') ->
            exists evs chats,
              log w' = log w0 ++ evs /\ Forall is_chat chats /\
              (dumped evs = [] \/ dumped evs = joined_message :: chats \/
               dumped evs = joined_message :: chats ++ [left_message]) /\
              (r = Ret tt -> dumped evs = joined_message :: chats ++ [left_message])).
  { intros r0 Hr0 [= <- <-]. exists [], []. rewrite app_nil_r, Hloga.
    repeat split; [constructor | now left | intros; contradiction]. }
  destruct rc as [[]|e| |]; try (apply Hstop; discriminate). clear Hstop.
  unfold bind at 1.
  destruct (broadcast joined_message wa) as [rj w] eqn:Hj.
  destruct (broadcast_outcome _ _ _ _ Hj) as (_ & evsj & Hlogj & Hdj).
  assert (Hstop : forall r0, r0 <> Ret tt -> (r0, w) = (r, w') ->
            exists evs chats,
              log w' = log w0 ++ evs /\ Forall is_chat chats /\
              (dumped evs = [] \/ dumped evs = joined_message :: chats \/
               dumped evs = joined_message :: chats ++ [left_message]) /\
              (r = Ret tt -> dumped evs = joined_message :: chats ++ [left_message])).
  { intros r0 Hr0 [= <- <-]. exists (EvDumps joined_message :: evsj), [].
    rewrite Hlogj, Hloga. cbn [dumped]. rewrite Hdj.
    repeat split; [constructor | right; now left | intros; contradiction]. }
  destruct rj as [[]|e| |]; try (apply Hstop; discriminate). clear Hstop.
  unfold try_except.
  destruct (read_loop fuel websocket w) as [rl w1] eqn:Hl.
  destruct (read_loop_outcome websocket fuel w w1 rl Hl) as (Hnr & _ & evsl & Hlogl & Hchat).
  assert (Hlog1 : log w1 = log w0 ++ (EvDumps joined_message :: evsj) ++ evsl).
  { rewrite Hlogl, Hlogj, Hloga, <- app_assoc. reflexivity. }
  assert (Hd1 : dumped ((EvDumps joined_message :: evsj) ++ evsl)
                = joined_message :: dumped evsl).
  { rewrite dumped_app. cbn [dumped]. now rewrite Hdj. }
  assert (Hstop : (rl, w1) = (r, w') -> rl <> Ret tt ->
            exists evs chats,
              log w' = log w0 ++ evs /\ Forall is_chat chats /\
              (dumped evs = [] \/ dumped evs = joined_message :: chats \/
               dumped evs = joined_message :: chats ++ [left_message]) /\
              (r = Ret tt -> dumped evs = joined_message :: chats ++ [left_message])).
  { intros [= <- <-] Hne. exists ((EvDumps joined_message :: evsj) ++ evsl), (dumped evsl).
    rewrite Hd1.
    repeat split; [exact Hlog1 | exact Hchat | right; now left | intros; contradiction]. }
  destruct rl as [[]|e| |]; try (intros Heq; now apply Hstop).
  destruct (is_WebSocketDisconnect e); [|intros Heq; apply Hstop; [exact Heq | discriminate]].
  clear Hstop. unfold bind.
  destruct (disconnect_returns websocket w1) as (w2 & Hd & _ & _ & Hlog2).
  rewrite Hd. intros Hleft.
  destruct (broadcast_outcome _ _ _ _ Hleft) as (_ & evsf & Hlogf & Hdf).
  exists (((EvDumps joined_message :: evsj) ++ evsl) ++ EvDumps left_message :: evsf),
         (dumped evsl).
  split; [now rewrite Hlogf, Hlog2, Hlog1, <- !app_assoc|].
  split; [exact Hchat|].
  assert (Hall : dumped (((EvDumps joined_message :: evsj) ++ evsl)
                           ++ EvDumps left_message :: evsf)
                 = joined_message :: dumped evsl ++ [left_message]).
  { rewrite dumped_app, Hd1. cbn [dumped]. now rewrite Hdf. }
  rewrite Hall. split; [right; now right | reflexivity].
Qed.

Section LeaveTraceScenario.
#[local] Existing Instance CalmPlatform.


Lemma endpoint_broadcast_sequence_witness :
  exists evs chats,
    log (snd (websocket_endpoint 5 7
                (sim_world calm [1; 2] [Done "hi"; Fails (WebSocketDisconnect 1000)] 0)))
    = [] ++ evs /\
    Forall is_chat chats /\
    dumped evs = joined_message :: chats ++ [left_message].
Proof.
  destruct (endpoint_broadcast_sequence 5 7
              (sim_world calm [1; 2] [Done "hi"; Fails (WebSocketDisconnect 1000)] 0)
              (snd (websocket_endpoint 5 7
                      (sim_world calm [1; 2]
                         [Done "hi"; Fails (WebSocketDisconnect 1000)] 0)))
              (Ret tt))
    as (evs & chats & Hlog & Hchat & _ & Hret).
  - vm_compute. reflexivity.
  - exists evs, chats. split; [exact Hlog|]. split; [exact Hchat|]. now apply Hret.
Defined.

End LeaveTraceScenario.

(** * The HTTP handlers: properties *)

(** ** Dicts *)

Section Dicts.

Lemma dict_get_set_same (k : string) (v : pyobj) (d : pydoc) :
  dict_get k (dict_set k v d) = Some v.
Proof.
  induction d as [|[k' v'] t IH]; cbn [dict_set dict_get].
  - now rewrite String.eqb_refl.
  - destruct (String.eqb k k') eqn:Hk; cbn [dict_get]; now rewrite Hk.
Qed.

Lemma dict_get_set_other (k k0 : string) (v : pyobj) (d : pydoc) :
  k0 <> k -> dict_get k0 (dict_set k v d) = dict_get k0 d.
Proof.
  intros Hne. induction d as [|[k' v'] t IH]; cbn [dict_set dict_get].
  - apply String.eqb_neq in Hne. now rewrite Hne.
  - destruct (String.eqb_spec k k') as [<-|Hk]; cbn [dict_get].
    + apply String.eqb_neq in Hne. now rewrite Hne.
    + now rewrite IH.
Qed.

(** Assigning to a key the dict has keeps the keys and their order. *)
Lemma dict_set_present (k : string) (v : pyobj) (d : pydoc) :
  dict_has k d = true -> map fst (dict_set k v d) = map fst d.
Proof.
  unfold dict_has. induction d as [|[k' v'] t IH]; cbn [dict_set dict_get map fst].
  - discriminate.
  - destruct (String.eqb k k') eqn:Hk; cbn [map fst]; [reflexivity|].
    intros Hin. now rewrite IH.
Qed.

(** Assigning to a key the dict does not have appends it. *)
Lemma dict_set_absent (k : string) (v : pyobj) (d : pydoc) :
  dict_get k d = None -> dict_set k v d = d ++ [(k, v)].
Proof.
  induction d as [|[k' v'] t IH]; cbn [dict_set dict_get app]; [reflexivity|].
  destruct (String.eqb k k'); [discriminate|]. intros Hget. now rewrite IH.
Qed.

Lemma dict_set_twice (k : string) (v v0 : pyobj) (d : pydoc) :
  dict_set k v (dict_set k v0 d) = dict_set k v d.
Proof.
  induction d as [|[k' v'] t IH]; cbn [dict_set].
  - now rewrite String.eqb_refl.
  - destruct (String.eqb k k') eqn:Hk; cbn [dict_set]; rewrite Hk; [reflexivity|].
    now rewrite IH.
Qed.

Lemma str_prefix_length (n : nat) (s : string) :
  String.length (str_prefix n s) <= n.
Proof.
  revert s. induction n as [|n IH]; intros [|a t]; cbn [str_prefix String.length]; try lia.
  specialize (IH t). lia.
Qed.

End Dicts.

(** X7.  [normalize] turns the [_id] of a document into its [str] and
    leaves the rest alone: the keys and their order, and the value of every
    other key, are those of the document; a document without [_id] comes
    back as it is; normalizing twice is normalizing once. *)
Theorem normalize_keeps_document `{B : Backend} (doc : pydoc) :
  map fst (normalize doc) = map fst doc /\
  (forall k, k <> "_id" -> dict_get k (normalize doc) = dict_get k doc) /\
  dict_get "_id" (normalize doc)
    = option_map (fun v => OStr (py_str v)) (dict_get "_id" doc) /\
  (dict_get "_id" doc = None -> normalize doc = doc) /\
  normalize (normalize doc) = normalize doc.
Proof.
  unfold normalize. destruct (dict_get "_id" doc) as [v|] eqn:Hid.
  - split; [apply dict_set_present; unfold dict_has; now rewrite Hid|].
    split; [intros k Hk; now apply dict_get_set_other|].
    split; [apply dict_get_set_same|]. split; [discriminate|].
    rewrite dict_get_set_same, dict_set_twice, py_str_str. reflexivity.
  - rewrite Hid. repeat split; auto.
Qed.

(** X8.  The [n] of [listings] always gives the document an [_id] that is a
    string: the [str] of the stored one, or the text [None] when the
    document has none, which it then appends; the other keys are untouched.
    On a document that has an [_id] it does what [normalize] does, on one
    without it differs: [normalize] returns the document unchanged. *)
Theorem listings_n_always_sets_id `{B : Backend} (d : pydoc) :
  dict_get "_id" (listings_n d)
    = Some (OStr (py_str (dict_get_default "_id" ONone d))) /\
  (forall k, k <> "_id" -> dict_get k (listings_n d) = dict_get k d) /\
  (dict_has "_id" d = true -> listings_n d = normalize d) /\
  (dict_has "_id" d = false ->
     listings_n d = d ++ [("_id", OStr "None")] /\ normalize d = d) /\
  listings_n (listings_n d) = listings_n d.
Proof.
  unfold listings_n, normalize, dict_has, dict_get_default.
  split; [apply dict_get_set_same|].
  split; [intros k Hk; now apply dict_get_set_other|].
  split; [|split].
  - destruct (dict_get "_id" d); [reflexivity | discriminate].
  - destruct (dict_get "_id" d) eqn:Hid; [discriminate|]. intros _.
    rewrite py_str_None. split; [now apply dict_set_absent | reflexivity].
  - rewrite dict_get_set_same, dict_set_twice, py_str_str. reflexivity.
Qed.

Lemma listings_n_always_sets_id_witness :
  @listings_n SimBackend [("price", OInt 3)] = [("price", OInt 3)] ++ [("_id", OStr "None")] /\
  @normalize SimBackend [("price", OInt 3)] = [("price", OInt 3)].
Proof.
  destruct (@listings_n_always_sets_id SimBackend [("price", OInt 3)])
    as (_ & _ & _ & Hmissing & _).
  apply Hmissing. reflexivity.
Defined.

Lemma normalize_keeps_document_witness :
  @normalize SimBackend [("owner", OStr "w")] = [("owner", OStr "w")].
Proof.
  destruct (@normalize_keeps_document SimBackend [("owner", OStr "w")])
    as (_ & _ & _ & Hmissing & _).
  apply Hmissing. reflexivity.
Defined.

(** ** Routes *)

(** X9.  [login_wallet] accepts an address of at least 20 characters and
    no other: a shorter one (the empty one included) gets
    [HTTPException(400)] before the clock or the store is touched; a longer
    one makes exactly one [create_document] call, for a [player] document
    with that address and the initial stats, and the reply (which holds the
    address only) is returned when the store accepts it, else the store's
    exception leaves the handler. *)
Theorem login_wallet_validates `{B : Backend} (address : string) (s : server) :
  (String.length address < 20 ->
     login_wallet address s = (Http 400 "Invalid wallet address", s)) /\
  (20 <= String.length address ->
     let now := fst (datetime_now (store s)) in
     let player_doc :=
       [("address", OStr address);
        ("last_login", ODatetime now);
        ("stats", ODict [("level", OInt 1); ("xp", OInt 0); ("hp", OInt 100)])] in
     let created := create_document "player" player_doc (snd (datetime_now (store s))) in
     exists r,
       login_wallet address s
         = (r, {| store := snd created;
                  writes := writes s ++ [("player", player_doc)] |}) /\
       match fst created with
       | inr _ => r = Ok [("ok", OBool true); ("player", ODict [("address", OStr address)])]
       | inl e => r = Err e
       end).
Proof.
  unfold login_wallet. split.
  - intros Hshort. apply Nat.ltb_lt in Hshort. rewrite Hshort, orb_true_r. reflexivity.
  - intros Hlong. cbv zeta.
    assert (Hstr : truthy_str address = true)
      by (destruct address; [cbn in Hlong; lia | reflexivity]).
    assert (Hlt : Nat.ltb (String.length address) 20 = false) by (apply Nat.ltb_ge; lia).
    rewrite Hstr, Hlt. cbn [negb orb].
    unfold se_bind, now_utc, on_store_total, create, se_ret.
    destruct (datetime_now (store s)) as [now st1]. cbn [fst snd store writes].
    destruct (create_document "player" _ st1) as [[e|id] st2]; cbn [fst snd];
      eexists; split; reflexivity.
Qed.

Lemma login_wallet_validates_witness :
  @login_wallet SimBackend "So1anaWa11et"
    (sim_server [] true [] (rpc_balance 5))
  = (Http 400 "Invalid wallet address", sim_server [] true [] (rpc_balance 5)).
Proof.
  apply (proj1 (@login_wallet_validates SimBackend "So1anaWa11et"
                  (sim_server [] true [] (rpc_balance 5)))).
  vm_compute. lia.
Defined.

(** ** The generators *)

Section Generators.
Context `{B : Backend}.

(** [rnd.choice] on a sequence that is not empty returns one of its
    elements, the one at the position the generator picks. *)
Lemma choice_picks {A} (seq : list A) (rnd : Rng) :
  seq <> [] ->
  exists x,
    In x seq /\
    forall s : server,
      choice seq rnd s = (Ok (x, snd (rnd_pick (List.length seq) rnd)), s).
Proof.
  intros Hne. unfold choice.
  destruct seq as [|a t]; [contradiction|].
  pose proof (rnd_pick_range (List.length (a :: t)) rnd) as Hlt.
  destruct (rnd_pick (List.length (a :: t)) rnd) as [i rnd'] eqn:Hpick.
  cbn [fst snd] in *.
  destruct (nth_error (a :: t) i) as [x|] eqn:Hnth.
  - exists x. split; [now apply nth_error_In with i | reflexivity].
  - exfalso. apply nth_error_None in Hnth. cbn [List.length] in *. lia.
Qed.

(** How the generator of a call is seeded. *)
Lemma new_Random_seeding (seed : option Z) (s : server) :
  match seed with
  | Some z =>
      if Z.eqb z 0 then
        new_Random seed s = new_Random None s
      else new_Random seed s = (Ok (Random z), s)
  | None =>
      let x := fst (random_randint 1 10000000 (store s)) in
      new_Random seed s
        = (Ok (Random x),
           {| store := snd (random_randint 1 10000000 (store s)); writes := writes s |}) /\
      (1 <= x <= 10000000)%Z
  end.
Proof.
  unfold new_Random. destruct seed as [z|]; cbn [truthy_int].
  - destruct (Z.eqb z 0); reflexivity.
  - cbv zeta. split.
    + unfold se_bind, on_store_total, se_ret.
      destruct (random_randint 1 10000000 (store s)). reflexivity.
    + apply random_randint_range. lia.
Qed.

Lemma new_Random_returns (seed : option Z) (s : server) :
  exists rnd0 s0, new_Random seed s = (Ok rnd0, s0) /\ writes s0 = writes s.
Proof.
  pose proof (new_Random_seeding seed s) as Hs.
  pose proof (new_Random_seeding None s) as [Hn _]. cbv zeta in Hn.
  destruct seed as [z|].
  - destruct (Z.eqb z 0).
    + rewrite Hs, Hn. eexists _, _. split; reflexivity.
    + rewrite Hs. eexists _, _. split; reflexivity.
  - rewrite Hn. eexists _, _. split; reflexivity.
Qed.

(** The quest is a function of the generator: everything but [expires_at]
    is fixed once the generator is seeded. *)
Lemma generate_quest_from (rnd0 : Rng) :
  exists target zone count reward,
    In target targets /\ In zone zones /\ (3 <= count <= 12)%Z /\
    ((exists amount, reward = token_reward amount /\ (5 <= amount <= 25)%Z) \/
     (exists name, reward = item_reward name /\ In name reward_items)) /\
    forall seed (s s0 : server),
      new_Random seed s = (Ok rnd0, s0) ->
      generate_quest seed s
        = (Ok (quest_dict target zone count reward
                 (isoformat (fst (datetime_now (store s0))))),
           {| store := snd (datetime_now (store s0)); writes := writes s0 |}).
Proof.
  pose proof (rnd_randint_range 5 25 rnd0 ltac:(lia)) as Hamount.
  destruct (rnd_randint 5 25 rnd0) as [amount g1] eqn:Hr1. cbn [fst] in Hamount.
  destruct (choice_picks reward_items g1 ltac:(discriminate)) as (item & Hitem & Hc1).
  set (g2 := snd (rnd_pick (List.length reward_items) g1)) in *.
  destruct (choice_picks targets g2 ltac:(discriminate)) as (target & Htarget & Hc2).
  set (g3 := snd (rnd_pick (List.length targets) g2)) in *.
  destruct (choice_picks zones g3 ltac:(discriminate)) as (zone & Hzone & Hc3).
  set (g4 := snd (rnd_pick (List.length zones) g3)) in *.
  pose proof (rnd_randint_range 3 12 g4 ltac:(lia)) as Hcount.
  destruct (rnd_randint 3 12 g4) as [count g5] eqn:Hr2. cbn [fst] in Hcount.
  destruct (choice_picks [token_reward amount; item_reward item] g5 ltac:(discriminate))
    as (reward & Hreward & Hc4).
  exists target, zone, count, reward.
  split; [exact Htarget|]. split; [exact Hzone|]. split; [exact Hcount|]. split.
  - destruct Hreward as [<-|[<-|[]]]; [left | right]; eauto.
  - intros seed s s0 Hnew. unfold generate_quest.
    unfold se_bind at 1. rewrite Hnew.
    unfold se_bind at 1. unfold randint, se_ret at 1. rewrite Hr1.
    unfold se_bind at 1. rewrite Hc1.
    unfold se_bind at 1. rewrite Hc2.
    unfold se_bind at 1. rewrite Hc3.
    unfold se_bind at 1. unfold se_ret at 1. rewrite Hr2.
    unfold se_bind at 1. rewrite Hc4.
    unfold se_bind, now_utc, on_store_total, se_ret.
    destruct (datetime_now (store s0)). reflexivity.
Qed.

End Generators.

(** X10.  [generate_quest] never raises and writes nothing; whatever the
    seed, the quest has the title [Cull the] plus one of the five targets,
    one of the four zones, a target count between 3 and 12, and a reward
    that is either a token reward of 5 to 25 or one of the three items. *)
Theorem generate_quest_well_formed `{B : Backend} (seed : option Z) (s : server) :
  exists target zone count reward expires_at s',
    generate_quest seed s = (Ok (quest_dict target zone count reward expires_at), s') /\
    writes s' = writes s /\
    In target targets /\ In zone zones /\ (3 <= count <= 12)%Z /\
    ((exists amount, reward = token_reward amount /\ (5 <= amount <= 25)%Z) \/
     (exists name, reward = item_reward name /\ In name reward_items)).
Proof.
  destruct (new_Random_returns seed s) as (rnd0 & s0 & Hnew & Hw).
  destruct (generate_quest_from rnd0)
    as (target & zone & count & reward & Ht & Hz & Hc & Hr & Hrun).
  exists target, zone, count, reward. eexists _, _.
  split; [exact (Hrun seed s s0 Hnew)|]. cbn [writes]. auto.
Qed.

(** X11.  With a seed other than 0, [generate_quest] does not touch the
    generator of the module, and everything in the quest but [expires_at]
    depends on the seed only: two calls with the same seed differ in
    [expires_at] at most. *)
Theorem seeded_quest_is_reproducible `{B : Backend} (z : Z) :
  z <> 0%Z ->
  exists target zone count reward,
    forall s : server,
      generate_quest (Some z) s
        = (Ok (quest_dict target zone count reward
                 (isoformat (fst (datetime_now (store s))))),
           {| store := snd (datetime_now (store s)); writes := writes s |}).
Proof.
  intros Hz.
  destruct (generate_quest_from (Random z))
    as (target & zone & count & reward & _ & _ & _ & _ & Hrun).
  exists target, zone, count, reward. intros s.
  apply Hrun. pose proof (new_Random_seeding (Some z) s) as Hs. cbv beta iota in Hs.
  apply Z.eqb_neq in Hz. now rewrite Hz in Hs.
Qed.

Section SeededQuestScenario.
#[local] Existing Instance SimBackend.

Lemma seeded_quest_is_reproducible_witness :
  exists target zone count reward,
    forall s : server,
      generate_quest (Some 7%Z) s
        = (Ok (quest_dict target zone count reward
                 (isoformat (fst (datetime_now (store s))))),
           {| store := snd (datetime_now (store s)); writes := writes s |}).
Proof.
  apply (seeded_quest_is_reproducible 7%Z). discriminate.
Defined.

End SeededQuestScenario.

(** X12.  A seed of 0 is no seed: [generate_quest], [generate_zone],
    [ai_quest] and [ai_zone] do for 0 exactly what they do for [None]; the
    generator is then seeded with a number between 1 and 10000000 drawn from
    the generator of the module, and the document [ai_quest] asks the store
    to create records the seed as [None]. *)
Theorem seed_zero_is_no_seed `{B : Backend} (s : server) :
  generate_quest (Some 0%Z) s = generate_quest None s /\
  generate_zone (Some 0%Z) s = generate_zone None s /\
  ai_quest (Some 0%Z) s = ai_quest None s /\
  ai_zone (Some 0%Z) s = ai_zone None s /\
  (exists x,
     (1 <= x <= 10000000)%Z /\ x = fst (random_randint 1 10000000 (store s)) /\
     new_Random (Some 0%Z) s
       = (Ok (Random x),
          {| store := snd (random_randint 1 10000000 (store s)); writes := writes s |})) /\
  (exists quest r s',
     ai_quest (Some 0%Z) s = (r, s') /\
     writes s' = writes s ++ [("quest", quest ++ [("seed", ONone)])] /\
     (r = Ok quest \/ exists e, r = Err e)).
Proof.
  split; [reflexivity|]. split; [reflexivity|]. split; [reflexivity|].
  split; [reflexivity|]. split.
  - destruct (new_Random_seeding None s) as [Hn Hx]. cbv zeta in Hn, Hx.
    eexists. split; [exact Hx|]. split; [reflexivity|]. exact Hn.
  - destruct (generate_quest_well_formed (Some 0%Z) s)
      as (target & zone & count & reward & expires & s1 & Hq & Hw & _).
    exists (quest_dict target zone count reward expires).
    unfold ai_quest. unfold se_bind at 1. rewrite Hq.
    unfold se_bind, create, se_ret. cbn [seed_or_None Z.eqb].
    destruct (create_document "quest" _ (store s1)) as [[e|id] st2];
      eexists _, _; (split; [reflexivity|]); cbn [writes]; rewrite Hw;
      (split; [reflexivity|]); eauto.
Qed.

Section ZoneNames.

(** [str(n)] has three characters for a number of three digits. *)
Lemma str_int_three_digits (n : Z) :
  (100 <= n <= 999)%Z -> String.length (str_int n) = 3.
Proof.
  intros Hn.
  assert (Hall : forallb (fun k => Nat.eqb (String.length (str_int (Z.of_nat (100 + k)))) 3)
                   (seq 0 900) = true) by (vm_compute; reflexivity).
  rewrite forallb_forall in Hall.
  specialize (Hall (Z.to_nat n - 100)).
  replace (Z.of_nat (100 + (Z.to_nat n - 100))) with n in Hall by lia.
  apply Nat.eqb_eq, Hall, in_seq. lia.
Qed.

Lemma length_append (s1 s2 : string) :
  String.length (s1 ++ s2) = String.length s1 + String.length s2.
Proof.
  induction s1 as [|a t IH]; cbn [append String.length]; [reflexivity|].
  now rewrite IH.
Qed.

End ZoneNames.

Section ZoneGenerator.
Context `{B : Backend}.

Lemma generate_zone_from (rnd0 : Rng) :
  exists number weather density r1 r2 r3,
    (100 <= number <= 999)%Z /\ In weather weathers /\
    forall seed (s s0 : server),
      new_Random seed s = (Ok rnd0, s0) ->
      generate_zone seed s
        = (Ok (zone_dict number weather density
                 [resource "ferrocrete" r1; resource "aether" r2; resource "plasma" r3]),
           s0).
Proof.
  destruct (choice_picks weathers rnd0 ltac:(discriminate)) as (weather & Hweather & Hc1).
  set (g1 := snd (rnd_pick (List.length weathers) rnd0)) in *.
  destruct (rnd_uniform 1 10 g1) as [density g2] eqn:Hu1.
  destruct (rnd_uniform 0 10 g2) as [r1 g3] eqn:Hu2.
  destruct (rnd_uniform 0 10 g3) as [r2 g4] eqn:Hu3.
  destruct (rnd_uniform 0 10 g4) as [r3 g5] eqn:Hu4.
  pose proof (rnd_randint_range 100 999 g5 ltac:(lia)) as Hnumber.
  destruct (rnd_randint 100 999 g5) as [number g6] eqn:Hr. cbn [fst] in Hnumber.
  exists number, weather, (py_round density 2),
         (py_round r1 2), (py_round r2 2), (py_round r3 2).
  split; [exact Hnumber|]. split; [exact Hweather|].
  intros seed s s0 Hnew. unfold generate_zone.
  unfold se_bind at 1. rewrite Hnew.
  unfold se_bind at 1. rewrite Hc1.
  unfold se_bind at 1. unfold uniform at 1, se_ret at 1. rewrite Hu1.
  unfold se_bind at 1. unfold uniform at 1, se_ret at 1. rewrite Hu2.
  unfold se_bind at 1. unfold uniform at 1, se_ret at 1. rewrite Hu3.
  unfold se_bind at 1. unfold uniform at 1, se_ret at 1. rewrite Hu4.
  unfold se_bind at 1. unfold randint, se_ret at 1. rewrite Hr.
  reflexivity.
Qed.

End ZoneGenerator.

(** X13.  [generate_zone] never raises and writes nothing; the zone is
    named [Zone-] plus a number from 100 to 999, so the name has eight
    characters; the weather is one of the five listed, and the resources are
    ferrocrete, aether and plasma, in that order. *)
Theorem generate_zone_well_formed `{B : Backend} (seed : option Z) (s : server) :
  exists number weather density r1 r2 r3 s',
    generate_zone seed s
      = (Ok (zone_dict number weather density
               [resource "ferrocrete" r1; resource "aether" r2; resource "plasma" r3]),
         s') /\
    writes s' = writes s /\
    (100 <= number <= 999)%Z /\
    String.length ("Zone-" ++ str_int number) = 8 /\
    In weather weathers.
Proof.
  destruct (new_Random_returns seed s) as (rnd0 & s0 & Hnew & Hw).
  destruct (generate_zone_from rnd0)
    as (number & weather & density & r1 & r2 & r3 & Hn & Hwe & Hrun).
  exists number, weather, density, r1, r2, r3, s0.
  split; [exact (Hrun seed s s0 Hnew)|]. split; [exact Hw|]. split; [exact Hn|].
  split; [|exact Hwe].
  rewrite length_append, (str_int_three_digits number Hn). reflexivity.
Qed.

(** ** [get_balance] and [test_database] *)

Section Balance.
Context `{B : Backend}.

(** The two shapes of the reply of [get_balance]. *)
Lemma get_balance_reply (address : string) (s : server) :
  exists reply s',
    get_balance address s = (Ok reply, s') /\
    writes s' = writes s /\
    ((exists lamports sol,
        reply = [("address", OStr address); ("lamports", lamports); ("sol", OFloat sol)]) \/
     (exists text,
        reply = [("address", OStr address); ("lamports", OInt 0); ("sol", OInt 0);
                 ("error", OStr (str_prefix 120 text))])).
Proof.
  unfold get_balance, se_try, se_bind at 1, on_store.
  destruct (requests_post SOLANA_RPC _ 8 (store s)) as [[e|r] st];
    [eexists _, _; split; [reflexivity|]; split; [reflexivity|]; right; eauto|].
  unfold se_bind at 1.
  destruct (resp_ok r).
  - unfold se_bind at 1, se_of at 1.
    destruct (resp_json r) as [e|body];
      [eexists _, _; split; [reflexivity|]; split; [reflexivity|]; right; eauto|].
    unfold se_bind at 1, se_of at 1.
    destruct (method_get body "result" (ODict [])) as [e|result];
      [eexists _, _; split; [reflexivity|]; split; [reflexivity|]; right; eauto|].
    unfold se_of at 1.
    destruct (method_get result "value" (OInt 0)) as [e|lamports];
      [eexists _, _; split; [reflexivity|]; split; [reflexivity|]; right; eauto|].
    unfold se_bind, se_of, se_ret.
    destruct (truediv_1e9 lamports) as [e|sol];
      eexists _, _; (split; [reflexivity|]); (split; [reflexivity|]); [right | left]; eauto.
  - unfold se_ret at 1. unfold se_bind, se_of, se_ret.
    destruct (truediv_1e9 (OInt 0)) as [e|sol];
      eexists _, _; (split; [reflexivity|]); (split; [reflexivity|]); [right | left]; eauto.
Qed.

End Balance.

(** X14.  [get_balance] never raises and never writes to the store: it
    always returns a reply that holds the address asked for; a reply with an
    [error] key reports 0 lamports and 0 sol, and its error text has at most
    120 characters. *)
Theorem get_balance_never_raises `{B : Backend} (address : string) (s : server) :
  exists reply s',
    get_balance address s = (Ok reply, s') /\
    writes s' = writes s /\
    dict_get "address" reply = Some (OStr address) /\
    (dict_has "error" reply = true ->
       dict_get "lamports" reply = Some (OInt 0) /\
       dict_get "sol" reply = Some (OInt 0) /\
       exists text,
         dict_get "error" reply = Some (OStr text) /\ String.length text <= 120).
Proof.
  destruct (get_balance_reply address s)
    as (reply & s' & Hrun & Hw & [(lamports & sol & ->) | (text & ->)]);
    (eexists; exists s'); (split; [exact Hrun|]); (split; [exact Hw|]);
    (split; [reflexivity|]).
  - cbn. discriminate.
  - intros _. split; [reflexivity|]. split; [reflexivity|].
    eexists. split; [reflexivity|]. apply str_prefix_length.
Qed.

Lemma get_balance_never_raises_witness :
  exists text,
    fst (@get_balance SimBackend "addr"
           (sim_server [] true []
              (inr {| resp_ok := true; resp_json := inr (OList []) |})))
    = Ok [("address", OStr "addr"); ("lamports", OInt 0); ("sol", OInt 0);
          ("error", OStr text)] /\
    String.length text <= 120.
Proof.
  destruct (@get_balance_never_raises SimBackend "addr"
              (sim_server [] true []
                 (inr {| resp_ok := true; resp_json := inr (OList []) |})))
    as (reply & s' & Hrun & _ & _ & Herr).
  injection Hrun as <- _.
  destruct (Herr eq_refl) as (_ & _ & text & Htext & Hlen).
  exists text. injection Htext as <-. split; [reflexivity | exact Hlen].
Defined.

(** X15.  What [get_balance] reports when the request itself succeeds.
    When the node answers with an HTTP error, the body is not read and the
    balance is 0.  When it answers [ok] with a JSON object, the balance is
    the [value] of its [result], 0 when the result (an object) has no
    [value] or the answer has no [result]; the reply then holds that balance
    and the quotient by [1e9], provided the division is defined. *)
Theorem get_balance_reads_value `{B : Backend}
    (address : string) (s : server) (r : response) (st : Store) :
  requests_post SOLANA_RPC
    [("jsonrpc", OStr "2.0"); ("id", OInt 1); ("method", OStr "getBalance");
     ("params", OList [OStr address])] 8 (store s) = (inr r, st) ->
  (resp_ok r = false ->
     forall sol, truediv_1e9 (OInt 0) = inr sol ->
       get_balance address s
         = (Ok [("address", OStr address); ("lamports", OInt 0); ("sol", OFloat sol)],
            {| store := st; writes := writes s |})) /\
  (resp_ok r = true ->
     forall body result sol,
       resp_json r = inr (ODict body) ->
       dict_get_default "result" (ODict []) body = ODict result ->
       truediv_1e9 (dict_get_default "value" (OInt 0) result) = inr sol ->
       get_balance address s
         = (Ok [("address", OStr address);
                ("lamports", dict_get_default "value" (OInt 0) result);
                ("sol", OFloat sol)],
            {| store := st; writes := writes s |})).
Proof.
  intros Hpost. split.
  - intros Hok sol Hdiv.
    unfold get_balance, se_try, se_bind at 1, on_store. rewrite Hpost.
    cbv beta iota. unfold se_bind at 1. rewrite Hok.
    unfold se_ret at 1. unfold se_bind, se_of, se_ret. now rewrite Hdiv.
  - intros Hok body result sol Hjson Hresult Hdiv.
    unfold get_balance, se_try, se_bind at 1, on_store. rewrite Hpost.
    cbv beta iota. unfold se_bind at 1. rewrite Hok.
    unfold se_bind at 1, se_of at 1. rewrite Hjson.
    unfold se_bind at 1, se_of at 1. cbn [method_get]. rewrite Hresult.
    unfold se_of at 1. cbn [method_get].
    unfold se_bind, se_of, se_ret. now rewrite Hdiv.
Qed.

Lemma get_balance_reads_value_witness :
  @get_balance SimBackend "addr" (sim_server [] true [] (rpc_balance 2500000000))
  = (Ok [("address", OStr "addr"); ("lamports", OInt 2500000000);
         ("sol", OFloat (Float64 2500000000))],
     sim_server [] true [] (rpc_balance 2500000000)).
Proof.
  refine (proj2 (@get_balance_reads_value SimBackend "addr"
                   (sim_server [] true [] (rpc_balance 2500000000)) _ _ eq_refl)
            eq_refl _ _ _ eq_refl eq_refl eq_refl).
Defined.

Section TestDatabase.
Context `{B : Backend}.

(** The three ways through [test_database]. *)
Lemma test_database_cases (s : server) :
  test_database s =
  if db_is_set (store s) then
    let url := OStr (url_text (getenv "DATABASE_URL" (store s))) in
    let name := OStr (name_text (getenv "DATABASE_NAME" (store s))) in
    match list_collection_names (store s) with
    | (inr names, st) =>
        (Ok [("backend", OStr "✅ Running");
             ("database", OStr "✅ Connected & Working");
             ("database_url", url);
             ("database_name", name);
             ("connection_status", OStr "Connected");
             ("collections", OList (map OStr (firstn 10 names)))],
         {| store := st; writes := writes s |})
    | (inl e, st) =>
        (Ok [("backend", OStr "✅ Running");
             ("database",
              OStr ("⚠️  Connected but Error: " ++ str_prefix 80 (err_text e)));
             ("database_url", url);
             ("database_name", name);
             ("connection_status", OStr "Not Connected");
             ("collections", OList [])],
         {| store := st; writes := writes s |})
    end
  else
    (Ok [("backend", OStr "✅ Running");
         ("database", OStr "⚠️  Available but not initialized");
         ("database_url", ONone);
         ("database_name", ONone);
         ("connection_status", OStr "Not Connected");
         ("collections", OList [])],
     s).
Proof.
  unfold test_database, test_database_body, se_try, se_bind, t_db_is_set, t_getenv,
    t_list_collection_names, assign, list_prefix, url_text, name_text.
  cbn [fst snd]. destruct (db_is_set (store s)).
  - cbn [fst snd store writes].
    destruct (list_collection_names (store s)) as [[e|names] st]; reflexivity.
  - reflexivity.
Qed.

End TestDatabase.

(** X16.  [test_database] never raises and never writes: it always returns
    the six keys of the report, in their order, with [backend] running.
    The connection is reported as [Connected] exactly when the database
    handle is set and listing the collections succeeds; the report then
    holds the first ten collection names and no more.  In every other case
    the list of collections is empty.  Without a database handle the
    environment is not read: [database_url] and [database_name] stay [None].
    The initial text of [database] never reaches the caller, and neither
    does the text of the outer handler. *)
Theorem test_database_reports `{B : Backend} (s : server) :
  exists report s',
    test_database s = (Ok report, s') /\
    writes s' = writes s /\
    map fst report = map fst response0 /\
    dict_get "backend" report = Some (OStr "✅ Running") /\
    (dict_get "connection_status" report = Some (OStr "Connected") <->
       db_is_set (store s) = true /\
       exists names, fst (list_collection_names (store s)) = inr names) /\
    (forall names,
       db_is_set (store s) = true ->
       fst (list_collection_names (store s)) = inr names ->
       dict_get "collections" report = Some (OList (map OStr (firstn 10 names))) /\
       List.length (firstn 10 names) <= 10 /\
       dict_get "database" report = Some (OStr "✅ Connected & Working")) /\
    (dict_get "connection_status" report <> Some (OStr "Connected") ->
       dict_get "collections" report = Some (OList [])) /\
    (db_is_set (store s) = false ->
       s' = s /\
       dict_get "database_url" report = Some ONone /\
       dict_get "database_name" report = Some ONone) /\
    dict_get "database" report <> dict_get "database" response0 /\
    (forall text, dict_get "database" report <> Some (OStr ("❌ Error: " ++ text))).
Proof.
  rewrite test_database_cases.
  destruct (db_is_set (store s)) eqn:Hdb.
  - cbv zeta. destruct (list_collection_names (store s)) as [[e|names] st] eqn:Hlist;
      eexists _, _; (split; [reflexivity|]); (split; [reflexivity|]);
      (split; [reflexivity|]); (split; [reflexivity|]); cbn [fst].
    + split; [split; [discriminate | intros (_ & names & Hn); discriminate]|].
      split; [intros names _ Hn; discriminate|].
      split; [reflexivity|]. split; [discriminate|].
      split; [discriminate|]. intros text. discriminate.
    + split; [split; [eauto | reflexivity]|].
      split; [intros names' _ Hn; injection Hn as <-;
              split; [reflexivity|]; split; [apply firstn_le_length | reflexivity]|].
      split; [intros Hnot; now contradiction Hnot|]. split; [discriminate|].
      split; [discriminate|]. intros text. discriminate.
  - eexists _, _. split; [reflexivity|]. split; [reflexivity|].
    split; [reflexivity|]. split; [reflexivity|].
    split; [split; [discriminate | intros (Hup & _); discriminate]|].
    split; [intros names Hup; discriminate|].
    split; [reflexivity|]. split; [intros _; repeat split|].
    split; [discriminate|]. intros text. discriminate.
Qed.

(** ** The handlers that read documents *)

(** X17.  [listings] and [get_inventory] return one entry for every
    document the store gives them, in the store's order, and write nothing;
    [get_inventory] asks for the items whose [owner] is the wallet.  The
    entry of a document is the document after [n] for [listings] and after
    [normalize] for [get_inventory]: every entry of [listings] has an [_id]
    that is a string, and the [_id] of an entry of [get_inventory], if it
    has one, is a string.  An exception of the store leaves the handler. *)
Theorem readers_return_every_document `{B : Backend} (wallet : string) (s : server) :
  match get_documents "listing" [] (store s) with
  | (inr docs, st) =>
      exists entries,
        listings s
          = (Ok [("listings", OList entries)], {| store := st; writes := writes s |}) /\
        List.length entries = List.length docs /\
        Forall2 (fun doc entry => entry = ODict (listings_n doc)) docs entries /\
        Forall (fun entry =>
                  exists d id, entry = ODict d /\ dict_get "_id" d = Some (OStr id))
               entries
  | (inl e, st) => listings s = (Err e, {| store := st; writes := writes s |})
  end /\
  match get_documents "item" [("owner", OStr wallet)] (store s) with
  | (inr docs, st) =>
      exists items,
        get_inventory wallet s
          = (Ok [("items", OList items)], {| store := st; writes := writes s |}) /\
        Forall2 (fun doc item => item = ODict (normalize doc)) docs items /\
        Forall (fun item =>
                  exists d, item = ODict d /\
                    forall v, dict_get "_id" d = Some v -> exists id, v = OStr id)
               items
  | (inl e, st) => get_inventory wallet s = (Err e, {| store := st; writes := writes s |})
  end.
Proof.
  split.
  - unfold listings, se_bind, on_store, se_ret.
    destruct (get_documents "listing" [] (store s)) as [[e|docs] st]; [reflexivity|].
    eexists. split; [reflexivity|]. split; [apply length_map|]. split.
    { induction docs as [|d t IH]; cbn [map]; constructor; auto. }
    apply Forall_map, Forall_forall. intros d _.
    eexists _, _. split; [reflexivity|]. unfold listings_n. apply dict_get_set_same.
  - unfold get_inventory, se_bind, on_store, se_ret.
    destruct (get_documents "item" _ (store s)) as [[e|docs] st]; [reflexivity|].
    eexists. split; [reflexivity|]. split.
    + induction docs as [|d t IH]; cbn [map]; constructor; auto.
    + apply Forall_map, Forall_forall. intros d _.
      eexists. split; [reflexivity|]. intros v. unfold normalize.
      destruct (dict_get "_id" d) as [v0|] eqn:Hid.
      * rewrite dict_get_set_same. intros [= <-]. eauto.
      * rewrite Hid. discriminate.
Qed.

Section ReadersScenario.
#[local] Existing Instance SimBackend.

Lemma readers_return_every_document_witness :
  exists entries,
    listings (sim_server [("listing", [("price", OInt 3)])] true [] (rpc_balance 0))
      = (Ok [("listings", OList entries)],
         sim_server [("listing", [("price", OInt 3)])] true [] (rpc_balance 0)) /\
    List.length entries = 1 /\
    Forall2 (fun doc entry => entry = ODict (listings_n doc))
            [[("price", OInt 3)]] entries /\
    Forall (fun entry =>
              exists d id, entry = ODict d /\ dict_get "_id" d = Some (OStr id))
           entries.
Proof.
  exact (proj1 (readers_return_every_document "w"
                  (sim_server [("listing", [("price", OInt 3)])] true []
                     (rpc_balance 0)))).
Defined.

End ReadersScenario.

(** ** The handlers that record a document *)

Ltac fields_kept :=
  let k := fresh "k" in
  let v := fresh "v" in
  intros k v; cbn;
  repeat match goal with
         | |- context [String.eqb k ?x] =>
             destruct (String.eqb_spec k x) as [->|?]; cbn
         end;
  auto; try discriminate.

Ltac records_one_document :=
  unfold records_one, se_bind, now_utc, on_store_total, create, se_ret;
  repeat match goal with
         | |- context [datetime_now ?st] =>
             let t := fresh "t" in
             let st' := fresh "st" in
             destruct (datetime_now st) as [t st']; cbn [store writes]
         end;
  match goal with
  | |- context [create_document ?c ?d ?st] =>
      let Hc := fresh "Hc" in
      destruct (create_document c d st) as [[?|?] ?] eqn:Hc;
      eexists _, _, _, _; (split; [exact Hc|]); (split; [fields_kept|]);
      eexists; (split; [reflexivity|]); cbn; eauto
  end.

(** X18.  Each of the six handlers that record something asks the store
    for exactly one document, whatever the store answers, and catches
    nothing: it replies [ok] when the store gave an id and lets the store's
    exception through when it raised.  The document holds the fields of the
    request as they came; a listing is recorded as [open], a purchase and a
    sale go to the same collection and are told apart by [action], a mint
    request is recorded with the intent [mint_nft]. *)
Theorem write_handlers_record_one_document `{B : Backend}
    (item : ItemCreate) (listing : CreateListingRequest) (trade : TradeActionRequest)
    (req : BuySellRequest) (mint : MintItemRequest) (s : server) :
  records_one (create_item item) "item" (ItemCreate_model_dump item) s /\
  records_one (create_listing listing) "listing"
    (CreateListingRequest_model_dump listing ++ [("status", OStr "open")]) s /\
  records_one (buy_listing trade) "trade"
    [("action", OStr "buy");
     ("wallet", OStr (trade_wallet trade));
     ("listing_id", OStr (trade_listing_id trade))] s /\
  records_one (buy_item req) "token_trades"
    (BuySellRequest_model_dump req ++ [("action", OStr "buy")]) s /\
  records_one (sell_item req) "token_trades"
    (BuySellRequest_model_dump req ++ [("action", OStr "sell")]) s /\
  records_one (mint_item_nft mint) "nft_mint_intents"
    [("wallet", OStr (mint_wallet mint));
     ("name", OStr (mint_name mint));
     ("attributes", ODict (mint_attributes mint));
     ("intent", OStr "mint_nft")] s.
Proof.
  split; [unfold create_item; records_one_document|].
  split; [unfold create_listing; records_one_document|].
  split; [unfold buy_listing; records_one_document|].
  split; [unfold buy_item; records_one_document|].
  split; [unfold sell_item; records_one_document|].
  unfold mint_item_nft; records_one_document.
Qed.
